(** * ipmac: MAC / IP pairings read from VLAN-tagged Ethernet frames

    A shallow embedding of [src/ipmac/ipmac.c] and the properties of its
    frame decoder [pcapRead], its MAC formatter [ether_mac] and its filter
    installer [pcapFilter].

    The C code works on three kinds of storage, all modelled explicitly:
    - the capture memory behind the pointer returned by [pcap_next], of
      which only the first [caplen] bytes belong to the captured frame;
    - the process-wide variables [mac_buffer], [ip] and [ip6];
    - the heap blocks obtained from [malloc].

    Functions of the C library and of libpcap are not part of the
    repository; their behaviour is modelled after their documentation
    ([sprintf], [inet_ntop], [ntohs]) or taken as an input of the model
    ([pcap_next], [pcap_compile], [pcap_setfilter]). *)

From Stdlib Require Import NArith ZArith String Ascii List Lia.
From Stdlib Require Import DecimalString HexadecimalString.
From Stdlib Require Import Strings.Byte.
From stdpp Require Import base option list strings.

Local Open Scope nat_scope.

(* ===================================================================== *)
(** ** Constants of the system headers *)
(* ===================================================================== *)

(** [<net/ethernet.h>] *)
Definition ETHERTYPE_VLAN : N := 0x8100%N.
Definition ETHERTYPE_ARP  : N := 0x0806%N.
Definition ETHERTYPE_IPV6 : N := 0x86dd%N.

(** [struct ether_header { u8 ether_dhost[6]; u8 ether_shost[6];
                           u16 ether_type; }] *)
Definition sizeof_ether_header : nat := 14.
Definition offsetof_ether_shost : nat := 6.
Definition offsetof_ether_type  : nat := 12.

(** [struct ip6_hdr], the fixed IPv6 header of [<netinet/ip6.h>]. *)
Definition sizeof_ip6_hdr : nat := 40.

(** [struct ether_arp { struct arphdr ea_hdr;  (8 bytes)
                        u8 arp_sha[6]; u8 arp_spa[4];
                        u8 arp_tha[6]; u8 arp_tpa[4]; }] *)
Definition offsetof_arp_sha : nat := 8.
Definition offsetof_arp_spa : nat := 14.

(** [struct nd_neighbor_solicit { struct icmp6_hdr nd_ns_hdr;  (8 bytes:
      type, code, checksum, 4 reserved bytes)
                                  struct in6_addr nd_ns_target; }] *)
Definition offsetof_nd_ns_target : nat := 8.

(* ===================================================================== *)
(** ** Storage *)
(* ===================================================================== *)

(** Where a [char *] or a [struct pair *] can point: at the static array
    [ip], at the static array [ip6], or at a block returned by [malloc]. *)
Inductive loc : Type :=
| Lip
| Lip6
| Lheap (b : nat).

(** Pointer values.  [Vundef] is the content of a field that was never
    assigned. *)
Inductive val : Type :=
| Vundef
| Vnull
| Vptr (l : loc).

(** [struct pair { char *mac; char *ip; char *ip6; }] of [ipmac.h].  The
    fields carry a [p_] prefix to keep them apart from the global arrays
    [ip] and [ip6]. *)
Record pair_t : Type := mkPair {
  p_mac : val;
  p_ip  : val;
  p_ip6 : val
}.

(** The content of a heap block: a character buffer holding a C string, a
    [struct pair], or nothing yet. *)
Inductive object : Type :=
| Ouninit
| Ochars (text : string)
| Opair (p : pair_t).

(** The file-scope variables of ipmac.c together with the heap.  A static
    character array is represented by the C string it holds. *)
Record state : Type := mkState {
  mac_buffer : val;
  ip   : string;
  ip6  : string;
  heap : list object
}.

(** The state at program start: [mac_buffer = NULL], zeroed arrays. *)
Definition init_state : state :=
  {| mac_buffer := Vnull; ip := ""; ip6 := ""; heap := [] |}.

(** What [pcap_next] hands over: a pointer to capture memory and, in the
    packet header, the number of bytes that belong to the frame.  [frame]
    are those bytes ([header.caplen = length frame]); [slack] is what
    happens to lie behind them in the capture buffer and is still
    addressable through the same pointer. *)
Record capture : Type := mkCapture {
  frame : list byte;
  slack : list byte
}.

Definition caplen (c : capture) : nat := length (frame c).
Definition memory (c : capture) : list byte := frame c ++ slack c.

#[global] Instance loc_eq_dec : EqDecision loc.
Proof. solve_decision. Defined.
#[global] Instance val_eq_dec : EqDecision val.
Proof. solve_decision. Defined.

(* ===================================================================== *)
(** ** The computation monad

    A computation transforms the [state], may stop in undefined behaviour
    ([None]: an access outside every object), and records the offsets of
    the capture memory it has read, in order. *)
(* ===================================================================== *)

Definition M (A : Type) : Type := state -> option (A * state * list nat).

Definition ret {A} (a : A) : M A := fun s => Some (a, s, []).

Definition bind {A B} (m : M A) (f : A -> M B) : M B :=
  fun s =>
    match m s with
    | None => None
    | Some (a, s1, r1) =>
        match f a s1 with
        | None => None
        | Some (b, s2, r2) => Some (b, s2, r1 ++ r2)
        end
    end.

Notation "'do' x <- m ; k" := (bind m (fun x => k))
  (at level 10, x name, m at level 100, k at level 200).
Notation "m ;; k" := (bind m (fun _ => k))
  (at level 100, k at level 200, right associativity).

Definition undefined_behaviour {A} : M A := fun _ => None.

(** [malloc]: a fresh block, never one that is already in use.  Allocation
    is assumed to succeed. *)
Definition malloc : M val :=
  fun s =>
    Some (Vptr (Lheap (length (heap s))),
          {| mac_buffer := mac_buffer s; ip := ip s; ip6 := ip6 s;
             heap := heap s ++ [Ouninit] |},
          []).

Definition get_mac_buffer : M val := fun s => Some (mac_buffer s, s, []).

Definition set_mac_buffer (v : val) : M unit :=
  fun s =>
    Some (tt,
          {| mac_buffer := v; ip := ip s; ip6 := ip6 s; heap := heap s |},
          []).

(** Writing a C string through a [char *]. *)
Definition store_chars (dst : val) (text : string) : M unit :=
  fun s =>
    match dst with
    | Vptr Lip =>
        Some (tt, {| mac_buffer := mac_buffer s; ip := text; ip6 := ip6 s;
                     heap := heap s |}, [])
    | Vptr Lip6 =>
        Some (tt, {| mac_buffer := mac_buffer s; ip := ip s; ip6 := text;
                     heap := heap s |}, [])
    | Vptr (Lheap b) =>
        match heap s !! b with
        | Some (Ouninit | Ochars _) =>
            Some (tt, {| mac_buffer := mac_buffer s; ip := ip s; ip6 := ip6 s;
                         heap := <[b := Ochars text]> (heap s) |}, [])
        | _ => None
        end
    | _ => None
    end.

(** Reading the C string behind a [char *]. *)
Definition load_chars (s : state) (src : val) : option string :=
  match src with
  | Vptr Lip => Some (ip s)
  | Vptr Lip6 => Some (ip6 s)
  | Vptr (Lheap b) =>
      match heap s !! b with
      | Some (Ochars text) => Some text
      | _ => None
      end
  | _ => None
  end.

(** Field access on the [struct pair] behind a pointer. *)
Definition load_pair (s : state) (p : val) : option pair_t :=
  match p with
  | Vptr (Lheap b) =>
      match heap s !! b with
      | Some (Opair pr) => Some pr
      | Some Ouninit => Some (mkPair Vundef Vundef Vundef)
      | _ => None
      end
  | _ => None
  end.

Definition store_pair (p : val) (upd : pair_t -> pair_t) : M unit :=
  fun s =>
    match p, load_pair s p with
    | Vptr (Lheap b), Some pr =>
        Some (tt, {| mac_buffer := mac_buffer s; ip := ip s; ip6 := ip6 s;
                     heap := <[b := Opair (upd pr)]> (heap s) |}, [])
    | _, _ => None
    end.

Definition set_mac (v : val) (pr : pair_t) : pair_t :=
  {| p_mac := v; p_ip := p_ip pr; p_ip6 := p_ip6 pr |}.
Definition set_ip (v : val) (pr : pair_t) : pair_t :=
  {| p_mac := p_mac pr; p_ip := v; p_ip6 := p_ip6 pr |}.
Definition set_ip6 (v : val) (pr : pair_t) : pair_t :=
  {| p_mac := p_mac pr; p_ip := p_ip pr; p_ip6 := v |}.

(** The [n] bytes at offset [off] of a byte sequence, when they exist. *)
Definition field (off n : nat) (mem : list byte) : option (list byte) :=
  if decide (off + n <= length mem) then Some (take n (drop off mem))
  else None.

(** Reading [n] bytes of capture memory at offset [off].  The model has no
    byte to give outside the memory: such a read is undefined. *)
Definition load_bytes (mem : list byte) (off n : nat) : M (list byte) :=
  fun s =>
    match field off n mem with
    | Some bs => Some (bs, s, seq off n)
    | None => None
    end.

(** A 16-bit quantity in network byte order. *)
Definition be16 (bs : list byte) : option N :=
  match bs with
  | [hi; lo] => Some (256 * Byte.to_N hi + Byte.to_N lo)%N
  | _ => None
  end.

(** [ntohs(eptr->ether_type)] for [eptr] at offset [eptr] of the capture
    memory: the two bytes of the field, most significant first. *)
Definition ntohs_ether_type (mem : list byte) (eptr : nat) : M N :=
  do bs <- load_bytes mem (eptr + offsetof_ether_type) 2;
  match be16 bs with
  | Some ty => ret ty
  | None => undefined_behaviour
  end.

(* ===================================================================== *)
(** ** Text conversions of the C library *)
(* ===================================================================== *)

(** [%x]: lowercase hexadecimal without leading zeros. *)
Definition fmt_x (n : N) : string :=
  HexadecimalString.NilZero.string_of_uint (N.to_hex_uint n).

(** [%u]: decimal without leading zeros. *)
Definition fmt_u (n : N) : string :=
  DecimalString.NilZero.string_of_uint (N.to_uint n).

(** Left padding with ['0'] up to a minimum field width. *)
Fixpoint zero_pad (k : nat) (t : string) : string :=
  match k with
  | O => t
  | S k' => String "0" (zero_pad k' t)
  end.

(** [%02x] applied to an octet. *)
Definition fmt_02x (b : byte) : string :=
  let t := fmt_x (Byte.to_N b) in
  zero_pad (2 - String.length t) t.

(** The text [sprintf] produces for
    ["%02x:%02x:%02x:%02x:%02x:%02x"] and six octets. *)
Definition mac_text (octets : list byte) : string :=
  String.concat ":" (fmt_02x <$> octets).

(** [inet_ntop(AF_INET, ...)]: ["%u.%u.%u.%u"] of the four octets. *)
Definition inet_ntop4_text (octets : list byte) : string :=
  String.concat "." ((fun b => fmt_u (Byte.to_N b)) <$> octets).

(** [inet_ntop(AF_INET6, ...)], after the implementation shared by the BSD
    and GNU C libraries. *)

(** The eight 16-bit words of the address. *)
Fixpoint words_of (bs : list byte) : list N :=
  match bs with
  | hi :: lo :: rest => (256 * Byte.to_N hi + Byte.to_N lo)%N :: words_of rest
  | _ => []
  end.

(** A run of zero words: its first index and its length. *)
Definition run : Type := (nat * nat)%type.

(** [best = cur] when there is no best run yet or [cur] is longer. *)
Definition keep_best (cur best : option run) : option run :=
  match cur, best with
  | None, _ => best
  | Some c, None => Some c
  | Some c, Some b => if decide (snd b < snd c) then Some c else Some b
  end.

(** The first loop: find the longest run of zero words. *)
Fixpoint longest_run (ws : list N) (i : nat) (cur best : option run)
  : option run :=
  match ws with
  | [] => keep_best cur best
  | w :: ws' =>
      if (w =? 0)%N then
        longest_run ws' (S i)
          (match cur with
           | None => Some (i, 1)
           | Some (b, l) => Some (b, S l)
           end) best
      else longest_run ws' (S i) None (keep_best cur best)
  end.

(** A run of a single zero word is not abbreviated. *)
Definition best_run (ws : list N) : option run :=
  match longest_run ws 0 None None with
  | Some (b, l) => if decide (l < 2) then None else Some (b, l)
  | None => None
  end.

Definition in_run (best : option run) (i : nat) : bool :=
  match best with
  | Some (b, l) => bool_decide (b <= i) && bool_decide (i < b + l)
  | None => false
  end.

(** Is the address an IPv4 address wrapped into IPv6 ([::a.b.c.d] or
    [::ffff:a.b.c.d])?  Tested when the loop reaches word 6. *)
Definition encapsulated_ipv4 (best : option run) (ws : list N) (i : nat)
  : bool :=
  match best with
  | Some (b, l) =>
      bool_decide (i = 6) && bool_decide (b = 0) &&
      (bool_decide (l = 6) ||
       (bool_decide (l = 5) && bool_decide (ws !! 5 = Some 0xffff%N)))
  | None => false
  end.

(** The second loop: print the words from index [i] on. *)
Fixpoint print_words (src : list byte) (all : list N) (best : option run)
    (ws : list N) (i : nat) : string :=
  match ws with
  | [] => ""
  | w :: ws' =>
      if in_run best i then
        (if bool_decide (fst <$> best = Some i) then ":" else "")
        +:+ print_words src all best ws' (S i)
      else
        (if bool_decide (i = 0) then "" else ":")
        +:+ (if encapsulated_ipv4 best all i
             then inet_ntop4_text (drop 12 src)
             else fmt_x w +:+ print_words src all best ws' (S i))
  end.

Definition inet_ntop6_text (src : list byte) : string :=
  let ws := words_of src in
  let best := best_run ws in
  print_words src ws best ws 0
  +:+ (match best with
       | Some (b, l) => if bool_decide (b + l = 8) then ":" else ""
       | None => ""
       end).

(* ===================================================================== *)
(** ** The functions of ipmac.c *)
(* ===================================================================== *)

Inductive address_family : Type := AF_INET | AF_INET6.

(** [inet_ntop(af, src, dst, size)] with [src] an offset into the capture
    memory.  The callers pass buffers of [INET_ADDRSTRLEN] and
    [INET6_ADDRSTRLEN] bytes, the sizes for which the conversion cannot run
    out of space, so the size argument is left out. *)
Definition inet_ntop (af : address_family) (mem : list byte) (src : nat)
    (dst : val) : M val :=
  match af with
  | AF_INET =>
      do octets <- load_bytes mem src 4;
      store_chars dst (inet_ntop4_text octets) ;;
      ret dst
  | AF_INET6 =>
      do octets <- load_bytes mem src 16;
      store_chars dst (inet_ntop6_text octets) ;;
      ret dst
  end.

(** External view of libpcap for [pcapFilter]: what [pcap_compile] and
    [pcap_setfilter] return on a handle for a filter expression. *)
Record pcap_t : Type := mkPcap {
  pcap_compile   : string -> Z;
  pcap_setfilter : string -> Z
}.

(** What a call of an [int] function yields: the value of a [return]
    statement, or nothing when control runs off the closing brace. *)
Inductive int_result : Type :=
| Returned (v : Z)
| NoReturnValue.

(** [int pcapClose(void *handle)]; [None] is the null handle. *)
Definition pcapClose (handle : option pcap_t) : int_result :=
  match handle with
  | None => Returned (-1)
  | Some _ => Returned 0
  end.

(** [int pcapFilter(void *handle, char *filter)] *)
Definition pcapFilter (handle : pcap_t) (filter : string) : int_result :=
  if (pcap_compile handle filter =? -1)%Z then Returned (-1)
  else if (pcap_setfilter handle filter =? -1)%Z then Returned (-1)
  else NoReturnValue.

(** [char *ether_mac(const struct ether_addr *addr)] with [addr] an
    offset into the capture memory.  The octets are read when [sprintf]
    evaluates its arguments. *)
Definition ether_mac (mem : list byte) (addr : nat) : M val :=
  do mb <- get_mac_buffer;
  (if decide (mb = Vnull)
   then (do b <- malloc; set_mac_buffer b)
   else ret tt) ;;
  do octets <- load_bytes mem addr 6;
  do mb <- get_mac_buffer;
  store_chars mb (mac_text octets) ;;
  get_mac_buffer.

(** [struct pair *pcapRead(void *handle)].  [next] is what
    [pcap_next(handle, &header)] delivers on this call: [None] for a null
    pointer, otherwise the capture.  The function never looks at
    [header], so [caplen] plays no part below. *)
Definition pcapRead (next : option capture) : M val :=
  do p <- malloc;
  match next with
  | None => ret Vnull
  | Some c =>
      let packet := memory c in
      let eptr := 0 in
      do ty <- ntohs_ether_type packet eptr;
      if negb (ty =? ETHERTYPE_VLAN)%N then ret Vnull
      else
        do m <- ether_mac packet (eptr + offsetof_ether_shost);
        store_pair p (set_mac m) ;;
        let eptr := 4 in
        do ty <- ntohs_ether_type packet eptr;
        if (ty =? ETHERTYPE_ARP)%N then
          let aptr := sizeof_ether_header + 4 in
          inet_ntop AF_INET packet (aptr + offsetof_arp_spa) (Vptr Lip) ;;
          store_pair p (set_ip (Vptr Lip)) ;;
          store_pair p (set_ip6 Vnull) ;;
          ret p
        else
          do ty <- ntohs_ether_type packet eptr;
          if (ty =? ETHERTYPE_IPV6)%N then
            let icmp6ptr := sizeof_ether_header + sizeof_ip6_hdr + 4 in
            inet_ntop AF_INET6 packet (icmp6ptr + offsetof_nd_ns_target)
              (Vptr Lip6) ;;
            store_pair p (set_ip Vnull) ;;
            store_pair p (set_ip6 (Vptr Lip6)) ;;
            ret p
          else ret Vnull
  end.

(* ===================================================================== *)
(** ** Reading a result the way a caller does *)
(* ===================================================================== *)

Inductive address : Type :=
| V4 (text : string)
| V6 (text : string).

(** The decoded pair behind a returned pointer: the MAC text and the text
    of the one address field that is not null.  [None] when the pointer is
    null or does not lead to such a pair. *)
Definition view (s : state) (r : val) : option (string * address) :=
  match load_pair s r with
  | Some pr =>
      match load_chars s (p_mac pr), p_ip pr, p_ip6 pr with
      | Some m, Vptr a, Vnull =>
          option_map (fun t => (m, V4 t)) (load_chars s (Vptr a))
      | Some m, Vnull, Vptr a =>
          option_map (fun t => (m, V6 t)) (load_chars s (Vptr a))
      | _, _, _ => None
      end
  | None => None
  end.

(** The invariant of the global variables between calls: [mac_buffer] is
    null or points at a heap block that holds text. *)
Definition wf (s : state) : Prop :=
  mac_buffer s = Vnull \/
  exists b t, mac_buffer s = Vptr (Lheap b) /\ heap s !! b = Some (Ochars t).

(* ===================================================================== *)
(** ** Sample frames *)
(* ===================================================================== *)

Definition zeros (n : nat) : list byte := repeat x00 n.

(** Destination ff:ff:ff:ff:ff:ff, source aa:bb:cc:dd:ee:ff, VLAN tag
    with id 100. *)
Definition vlan_header : list byte :=
  [xff; xff; xff; xff; xff; xff; xaa; xbb; xcc; xdd; xee; xff;
   x81; x00; x00; x64].

(** An ARP request from 10.0.0.5 whose ARP sender hardware address
    02:00:00:00:00:01 differs from the Ethernet source address. *)
Definition arp_frame : list byte :=
  vlan_header ++ [x08; x06] ++
  [x00; x01; x08; x00; x06; x04; x00; x01;
   x02; x00; x00; x00; x00; x01;  x0a; x00; x00; x05;
   x00; x00; x00; x00; x00; x00;  x0a; x00; x00; x01].

(** A second ARP request, from 02:11:22:33:44:55 / 192.168.1.9. *)
Definition arp_frame' : list byte :=
  [xff; xff; xff; xff; xff; xff; x02; x11; x22; x33; x44; x55;
   x81; x00; x00; x64; x08; x06;
   x00; x01; x08; x00; x06; x04; x00; x01;
   x02; x11; x22; x33; x44; x55;  xc0; xa8; x01; x09;
   x00; x00; x00; x00; x00; x00;  xc0; xa8; x01; x01].

(** A neighbour solicitation for fe80::1: IPv6 header (next header 58),
    ICMPv6 type 135, code 0, checksum, reserved, target. *)
Definition ns_frame : list byte :=
  vlan_header ++ [x86; xdd] ++
  [x60; x00; x00; x00; x00; x18; x3a; xff] ++ zeros 16 ++
  [xff; x02] ++ zeros 9 ++ [x01; xff; x00; x00; x01] ++
  [x87; x00; x12; x34; x00; x00; x00; x00] ++
  [xfe; x80] ++ zeros 13 ++ [x01].

(** A VLAN-tagged IPv4 frame and an untagged ARP frame. *)
Definition ipv4_frame : list byte :=
  vlan_header ++ [x08; x00] ++ zeros 20.
Definition untagged_arp_frame : list byte :=
  [xff; xff; xff; xff; xff; xff; xaa; xbb; xcc; xdd; xee; xff; x08; x06]
  ++ zeros 28.

Definition whole (f : list byte) : capture := {| frame := f; slack := [] |}.

(* ===================================================================== *)
(** ** The four ways through [pcapRead]

    A description of the control flow of [pcapRead] on a capture memory and
    of the state each path leaves behind, used to reason about all
    captures at once; [pcapRead_run] below shows that [pcapRead] does
    exactly this. *)
(* ===================================================================== *)

(** The EtherType stored at offset [off]. *)
Definition ether_type_at (mem : list byte) (off : nat) : option N :=
  match field off 2 mem with
  | Some bs => be16 bs
  | None => None
  end.

Inductive path : Type :=
| NotVlan
| OtherInner (shost : list byte)
| InnerArp (shost spa : list byte)
| InnerIpv6 (shost target : list byte).

Definition path_of (mem : list byte) : option path :=
  match ether_type_at mem 12 with
  | None => None
  | Some outer =>
      if negb (outer =? ETHERTYPE_VLAN)%N then Some NotVlan
      else
        match field 6 6 mem, ether_type_at mem 16 with
        | Some shost, Some inner =>
            if (inner =? ETHERTYPE_ARP)%N then
              option_map (InnerArp shost) (field 32 4 mem)
            else if (inner =? ETHERTYPE_IPV6)%N then
              option_map (InnerIpv6 shost) (field 66 16 mem)
            else Some (OtherInner shost)
        | _, _ => None
        end
  end.

(** The offsets read along a path, in the order of the reads. *)
Definition reads_of (p : path) : list nat :=
  match p with
  | NotVlan => seq 12 2
  | OtherInner _ => seq 12 2 ++ seq 6 6 ++ seq 16 2 ++ seq 16 2
  | InnerArp _ _ => seq 12 2 ++ seq 6 6 ++ seq 16 2 ++ seq 32 4
  | InnerIpv6 _ _ => seq 12 2 ++ seq 6 6 ++ seq 16 2 ++ seq 16 2 ++ seq 66 16
  end.

(** The number of bytes a frame must have for all reads of a path to stay
    inside it. *)
Definition required_length (p : path) : nat :=
  match p with
  | NotVlan => 14
  | OtherInner _ => 18
  | InnerArp _ _ => 36
  | InnerIpv6 _ _ => 82
  end.

(** The block [mac_buffer] points at once [ether_mac] has run: the block
    it pointed at before or, on first use, a new one. *)
Definition mac_block (s : state) : nat :=
  match mac_buffer s with
  | Vptr (Lheap b) => b
  | _ => length (heap s)
  end.

(** The state after a call with no packet or with a frame that lacks the
    VLAN marker: only the pair has been allocated. *)
Definition after_alloc (s : state) : state :=
  {| mac_buffer := mac_buffer s; ip := ip s; ip6 := ip6 s;
     heap := heap s ++ [Ouninit] |}.

(** The state [ether_mac] leaves when it has formatted [octets]. *)
Definition after_ether_mac (s : state) (octets : list byte) : state :=
  {| mac_buffer := Vptr (Lheap (mac_block s)); ip := ip s; ip6 := ip6 s;
     heap :=
       <[mac_block s := Ochars (mac_text octets)]>
         (heap s ++ if decide (mac_buffer s = Vnull) then [Ouninit] else [])
  |}.

(** The state after a call that went through [ether_mac]: the pair block,
    allocated first, holds the fields [f_ip] and [f_ip6]; the static
    arrays hold [t_ip] and [t_ip6]. *)
Definition after_vlan (s : state) (shost : list byte) (f_ip f_ip6 : val)
    (t_ip t_ip6 : string) : state :=
  let s1 := after_ether_mac (after_alloc s) shost in
  {| mac_buffer := mac_buffer s1; ip := t_ip; ip6 := t_ip6;
     heap :=
       <[length (heap s) := Opair (mkPair (mac_buffer s1) f_ip f_ip6)]>
         (heap s1) |}.

Definition outcome_of (p : path) (s : state) : val * state * list nat :=
  match p with
  | NotVlan => (Vnull, after_alloc s, reads_of p)
  | OtherInner shost =>
      (Vnull, after_vlan s shost Vundef Vundef (ip s) (ip6 s), reads_of p)
  | InnerArp shost spa =>
      (Vptr (Lheap (length (heap s))),
       after_vlan s shost (Vptr Lip) Vnull (inet_ntop4_text spa) (ip6 s),
       reads_of p)
  | InnerIpv6 shost target =>
      (Vptr (Lheap (length (heap s))),
       after_vlan s shost Vnull (Vptr Lip6) (ip s) (inet_ntop6_text target),
       reads_of p)
  end.

(* ===================================================================== *)
(** ** Notions used in the statements *)
(* ===================================================================== *)

(** The length a frame needs for the reads of its own path: 14 bytes up to
    the first EtherType, 18 up to the inner one when the first is the VLAN
    marker, 36 up to the ARP sender protocol address, 82 up to the
    neighbour-solicitation target. *)
Definition required_length_of (f : list byte) : nat :=
  match ether_type_at f 12 with
  | Some outer =>
      if negb (outer =? ETHERTYPE_VLAN)%N then 14
      else
        match ether_type_at f 16 with
        | Some inner =>
            if (inner =? ETHERTYPE_ARP)%N then 36
            else if (inner =? ETHERTYPE_IPV6)%N then 82
            else 18
        | None => 18
        end
  | None => 14
  end.

Definition long_enough (f : list byte) : Prop :=
  required_length_of f <= length f.

(** The sixteen lowercase hexadecimal digits. *)
Definition lower_hex_digit (n : N) : ascii :=
  match String.get (N.to_nat n) "0123456789abcdef" with
  | Some a => a
  | None => "?"%char
  end.

(** An octet as two lowercase hexadecimal digits, high nibble first. *)
Definition octet_pair (b : byte) : string :=
  String (lower_hex_digit (Byte.to_N b / 16))
    (String (lower_hex_digit (Byte.to_N b mod 16)) "").

(** The first 13 bytes of [arp_frame] delivered as the frame, with the
    remaining bytes still behind them in the capture buffer. *)
Definition truncated_arp : capture :=
  {| frame := take 13 arp_frame; slack := drop 13 arp_frame |}.

(** A handle on which every filter compiles and installs. *)
Definition accepting_handle : pcap_t :=
  {| pcap_compile := fun _ => 0%Z; pcap_setfilter := fun _ => 0%Z |}.

(** A handle on which no filter compiles, and one on which none can be
    installed. *)
Definition rejecting_handle : pcap_t :=
  {| pcap_compile := fun _ => (-1)%Z; pcap_setfilter := fun _ => 0%Z |}.
Definition uninstallable_handle : pcap_t :=
  {| pcap_compile := fun _ => 0%Z; pcap_setfilter := fun _ => (-1)%Z |}.

(** The state in which the first call leaves the program when it reads
    [arp_frame]. *)
Definition state_after_arp : state :=
  {| mac_buffer := Vptr (Lheap 1);
     ip := "10.0.0.5";
     ip6 := "";
     heap := [Opair (mkPair (Vptr (Lheap 1)) (Vptr Lip) Vnull);
              Ochars "aa:bb:cc:dd:ee:ff"] |}.

(* ===================================================================== *)
(** ** Buffer sizes, earlier results and sequences of calls *)
(* ===================================================================== *)

(** [mac_buffer = malloc(18)]; [char ip[INET_ADDRSTRLEN]] and
    [char ip6[INET6_ADDRSTRLEN]] with the values of [<netinet/in.h>]. *)
Definition MAC_BUFFER_SIZE : nat := 18.
Definition INET_ADDRSTRLEN : nat := 16.
Definition INET6_ADDRSTRLEN : nat := 46.

(** A C string fits a buffer when there is room for its characters and
    the terminating zero. *)
Definition fits (t : string) (size : nat) : Prop := String.length t < size.

(** Every text held by the three buffers of ipmac.c fits its buffer. *)
Definition buffers_fit (s : state) : Prop :=
  fits (ip s) INET_ADDRSTRLEN /\
  fits (ip6 s) INET6_ADDRSTRLEN /\
  forall t, load_chars s (mac_buffer s) = Some t -> fits t MAC_BUFFER_SIZE.

(** A pointer that some call of [pcapRead] has returned: it leads to a
    pair whose [mac] is the process-wide [mac_buffer] and whose one
    address field is the static array of its family. *)
Definition is_result (s : state) (r : val) : Prop :=
  exists b pr,
    r = Vptr (Lheap b) /\
    heap s !! b = Some (Opair pr) /\
    mac_buffer s <> Vnull /\
    p_mac pr = mac_buffer s /\
    ((p_ip pr = Vptr Lip /\ p_ip6 pr = Vnull) \/
     (p_ip pr = Vnull /\ p_ip6 pr = Vptr Lip6)).

Definition same_family (a b : address) : bool :=
  match a, b with
  | V4 _, V4 _ => true
  | V6 _, V6 _ => true
  | _, _ => false
  end.

(** One call of [pcapRead] after the other, each starting in the state
    the previous one left; [nexts] lists what [pcap_next] delivers. *)
Fixpoint pcapRead_all (nexts : list (option capture)) (s : state)
  : option (list val * state) :=
  match nexts with
  | [] => Some ([], s)
  | next :: rest =>
      match pcapRead next s with
      | None => None
      | Some (r, s1, _) =>
          match pcapRead_all rest s1 with
          | None => None
          | Some (rs, s2) => Some (r :: rs, s2)
          end
      end
  end.

(** The offsets [pcapRead] can read at all: the source address and first
    EtherType, the inner EtherType, the ARP sender protocol address and
    the neighbour-solicitation target. *)
Definition readable_offset (i : nat) : Prop :=
  6 <= i <= 13 \/ 16 <= i <= 17 \/ 32 <= i <= 35 \/ 66 <= i <= 81.

(** The state after reading [ns_frame] first. *)
Definition state_after_ns : state :=
  {| mac_buffer := Vptr (Lheap 1);
     ip := "";
     ip6 := "fe80::1";
     heap := [Opair (mkPair (Vptr (Lheap 1)) Vnull (Vptr Lip6));
              Ochars "aa:bb:cc:dd:ee:ff"] |}.

(** [P n], [P (n + 1)], ... for [count] consecutive numbers. *)
Fixpoint all_from (count : nat) (n : N) (P : N -> bool) : bool :=
  match count with
  | O => true
  | S count' => P n && all_from count' (N.succ n) P
  end.

(** Bounds on the characters [print_words] emits: a word inside the
    abbreviated run costs at most the colon, any other word a colon and
    four digits; an embedded IPv4 address, which only a run of five or six
    leading zero words allows, costs eleven characters more. *)
Fixpoint words_cost (best : option run) (ws : list N) (i : nat) : nat :=
  match ws with
  | [] => 0
  | _ :: ws' => (if in_run best i then 1 else 5) + words_cost best ws' (S i)
  end.

Definition can_encapsulate (best : option run) : bool :=
  bool_decide (best = Some (0, 5)) || bool_decide (best = Some (0, 6)).

(** The value of a lowercase hexadecimal digit and of a pair of them. *)
Definition hex_value (a : ascii) : N :=
  match String.index 0 (String a "") "0123456789abcdef" with
  | Some k => N.of_nat k
  | None => 0
  end.

Definition pair_value (t : string) : N :=
  match t with
  | String h (String l "") => (16 * hex_value h + hex_value l)%N
  | _ => 0
  end.

(** The state after a first call of [ether_mac] on the source address of
    [arp_frame]. *)
Definition state_after_ether_mac : state :=
  {| mac_buffer := Vptr (Lheap 0);
     ip := "";
     ip6 := "";
     heap := [Ochars "aa:bb:cc:dd:ee:ff"] |}.

(** The state after reading [arp_frame] and then [ns_frame]. *)
Definition state_after_arp_ns : state :=
  {| mac_buffer := Vptr (Lheap 1);
     ip := "10.0.0.5";
     ip6 := "fe80::1";
     heap := [Opair (mkPair (Vptr (Lheap 1)) (Vptr Lip) Vnull);
              Ochars "aa:bb:cc:dd:ee:ff";
              Opair (mkPair (Vptr (Lheap 1)) Vnull (Vptr Lip6))] |}.

(** The reads of a call on [ns_frame]. *)
Definition ns_reads : list nat :=
  [12; 13; 6; 7; 8; 9; 10; 11; 16; 17; 16; 17;
   66; 67; 68; 69; 70; 71; 72; 73; 74; 75; 76; 77; 78; 79; 80; 81].

(** A VLAN-tagged IPv4 frame from 02:11:22:33:44:55 and the state after
    reading [ns_frame] and then this frame. *)
Definition other_vlan_frame : list byte :=
  [xff; xff; xff; xff; xff; xff; x02; x11; x22; x33; x44; x55;
   x81; x00; x00; x64; x08; x00] ++ zeros 20.

Definition state_after_ns_other : state :=
  {| mac_buffer := Vptr (Lheap 1);
     ip := "";
     ip6 := "fe80::1";
     heap := [Opair (mkPair (Vptr (Lheap 1)) Vnull (Vptr Lip6));
              Ochars "02:11:22:33:44:55";
              Opair (mkPair (Vptr (Lheap 1)) Vundef Vundef)] |}.

(* ===================================================================== *)
(** ** The byte fields of a frame *)
(* ===================================================================== *)

Lemma field_Some off n mem bs :
  field off n mem = Some bs ->
  off + n <= length mem /\ bs = take n (drop off mem) /\ length bs = n.
Proof.
  unfold field. case_decide; [|discriminate].
  intros [= <-]. split; [done|]. split; [done|].
  rewrite length_take, length_drop. lia.
Qed.

(** A field that lies within the frame is read from the frame, whatever
    follows it in memory. *)
Lemma field_app off n (f sl : list byte) bs :
  field off n f = Some bs -> field off n (f ++ sl) = Some bs.
Proof.
  intros H. apply field_Some in H as (Hle & -> & _).
  unfold field. rewrite length_app. case_decide; [|lia].
  f_equal. rewrite drop_app_le by lia.
  rewrite take_app_le; [done|]. rewrite length_drop. lia.
Qed.

Lemma ether_type_at_app (f sl : list byte) off ty :
  ether_type_at f off = Some ty -> ether_type_at (f ++ sl) off = Some ty.
Proof.
  unfold ether_type_at. destruct (field off 2 f) eqn:E; [|discriminate].
  by rewrite (field_app _ _ _ sl _ E).
Qed.

(* ===================================================================== *)
(** ** Running the computations *)
(* ===================================================================== *)

Lemma bind_run {A B} (m : M A) (f : A -> M B) s a s1 r1 :
  m s = Some (a, s1, r1) ->
  bind m f s =
    match f a s1 with
    | None => None
    | Some (b, s2, r2) => Some (b, s2, r1 ++ r2)
    end.
Proof. intros H. unfold bind. by rewrite H. Qed.

Lemma ntohs_ether_type_run mem eptr s :
  ntohs_ether_type mem eptr s =
    match ether_type_at mem (eptr + 12) with
    | Some ty => Some (ty, s, seq (eptr + 12) 2)
    | None => None
    end.
Proof.
  unfold ntohs_ether_type, ether_type_at, bind, load_bytes.
  change offsetof_ether_type with 12.
  destruct (field (eptr + 12) 2 mem) as [bs|]; [|done].
  destruct (be16 bs); [|done]. unfold ret. by rewrite app_nil_r.
Qed.

Lemma pcapRead_no_packet s :
  pcapRead None s = Some (Vnull, after_alloc s, []).
Proof. reflexivity. Qed.

Lemma lookup_fresh (h : list object) o rest :
  (h ++ o :: rest) !! length h = Some o.
Proof. by rewrite list_lookup_middle. Qed.

Lemma ether_mac_run mem addr s :
  wf s ->
  ether_mac mem addr s =
    match field addr 6 mem with
    | Some octets =>
        Some (Vptr (Lheap (mac_block s)), after_ether_mac s octets,
              seq addr 6)
    | None => None
    end.
Proof.
  intros Hwf. unfold ether_mac, after_ether_mac, mac_block.
  rewrite (bind_run _ _ s (mac_buffer s) s []) by done.
  destruct Hwf as [Hn | (b & t & Hb & Ht)].
  - rewrite Hn. simpl. unfold bind, load_bytes. simpl.
    destruct (field addr 6 mem) as [octets|]; [|done]. simpl.
    rewrite lookup_fresh. simpl. by rewrite ?app_nil_r.
  - rewrite Hb. simpl. unfold bind, load_bytes. simpl.
    destruct (field addr 6 mem) as [octets|]; [|done]. simpl.
    unfold store_chars. rewrite Hb, Ht. simpl. by rewrite ?app_nil_r.
Qed.

Lemma mac_block_after_alloc s :
  wf s -> mac_block (after_alloc s) <> length (heap s).
Proof.
  intros [Hn | (b & t & Hb & Ht)]; unfold mac_block, after_alloc; simpl.
  - rewrite Hn, length_app. simpl. lia.
  - rewrite Hb. apply lookup_lt_Some in Ht. lia.
Qed.

Lemma pair_block_after_ether_mac s octets :
  wf s ->
  heap (after_ether_mac (after_alloc s) octets) !! length (heap s)
  = Some Ouninit.
Proof.
  intros Hwf. pose proof (mac_block_after_alloc s Hwf) as Hne.
  unfold after_ether_mac. cbn [heap].
  rewrite list_lookup_insert_ne by done.
  cbn [after_alloc heap]. rewrite <- app_assoc. apply lookup_fresh.
Qed.

Lemma store_pair_uninit b upd s :
  heap s !! b = Some Ouninit ->
  store_pair (Vptr (Lheap b)) upd s =
    Some (tt,
          {| mac_buffer := mac_buffer s; ip := ip s; ip6 := ip6 s;
             heap := <[b := Opair (upd (mkPair Vundef Vundef Vundef))]> (heap s) |},
          []).
Proof. intros H. unfold store_pair, load_pair. by rewrite H. Qed.

Lemma store_pair_again b upd pr h mb i i6 :
  b < length h ->
  store_pair (Vptr (Lheap b)) upd
    {| mac_buffer := mb; ip := i; ip6 := i6; heap := <[b := Opair pr]> h |} =
    Some (tt,
          {| mac_buffer := mb; ip := i; ip6 := i6;
             heap := <[b := Opair (upd pr)]> h |},
          []).
Proof.
  intros H. unfold store_pair, load_pair. cbn [heap mac_buffer ip ip6].
  rewrite list_lookup_insert_eq by done. by rewrite list_insert_insert_eq.
Qed.

Lemma inet_ntop_run af mem src dst s :
  (dst = Vptr Lip \/ dst = Vptr Lip6) ->
  inet_ntop af mem src dst s =
    match af with
    | AF_INET =>
        match field src 4 mem with
        | Some octets =>
            option_map (fun '(_, s', _) => (dst, s', seq src 4))
              (store_chars dst (inet_ntop4_text octets) s)
        | None => None
        end
    | AF_INET6 =>
        match field src 16 mem with
        | Some octets =>
            option_map (fun '(_, s', _) => (dst, s', seq src 16))
              (store_chars dst (inet_ntop6_text octets) s)
        | None => None
        end
    end.
Proof.
  intros Hd. unfold inet_ntop, bind, load_bytes, ret.
  destruct af.
  - destruct (field src 4 mem); [|done].
    destruct Hd as [-> | ->]; cbn -[seq]; by rewrite ?app_nil_r.
  - destruct (field src 16 mem); [|done].
    destruct Hd as [-> | ->]; cbn -[seq]; by rewrite ?app_nil_r.
Qed.

(** [pcapRead] on a packet follows [path_of] and leaves [outcome_of]. *)
Lemma pcapRead_run c s :
  wf s ->
  pcapRead (Some c) s
  = option_map (fun p => outcome_of p s) (path_of (memory c)).
Proof.
  intros Hwf. unfold pcapRead, path_of.
  set (mem := memory c).
  rewrite (bind_run _ _ s (Vptr (Lheap (length (heap s)))) (after_alloc s) [])
    by done.
  unfold bind at 1. rewrite ntohs_ether_type_run. change (0 + 12) with 12.
  destruct (ether_type_at mem 12) as [outer|]; [|done].
  destruct (outer =? ETHERTYPE_VLAN)%N; cbn [negb]; [|done].
  unfold bind at 1.
  rewrite ether_mac_run by (by destruct Hwf as [?|(b&t&?&?)]; [left|right; exists b, t; split; [done|by apply lookup_app_l_Some]]).
  change (0 + offsetof_ether_shost) with 6.
  destruct (field 6 6 mem) as [shost|]; [|done].
  unfold bind at 1.
  rewrite store_pair_uninit by (by apply pair_block_after_ether_mac).
  cbn [mac_buffer ip ip6 heap after_ether_mac set_mac].
  unfold outcome_of, after_vlan. cbn [mac_buffer ip ip6 heap after_ether_mac].
  set (mb := Vptr (Lheap (mac_block (after_alloc s)))).
  set (h1 := <[mac_block (after_alloc s) := _]> _).
  assert (Hlen : length (heap s) < length h1).
  { subst h1. rewrite length_insert, length_app. cbn [heap after_alloc].
    rewrite length_app. simpl. lia. }
  unfold bind at 1. rewrite ntohs_ether_type_run. change (4 + 12) with 16.
  destruct (ether_type_at mem 16) as [inner|] eqn:E16; [|done].
  destruct (inner =? ETHERTYPE_ARP)%N.
  - unfold bind at 1. rewrite inet_ntop_run by (by left).
    change (sizeof_ether_header + 4 + offsetof_arp_spa) with 32.
    destruct (field 32 4 mem) as [spa|]; [|done].
    cbn [store_chars option_map mac_buffer ip ip6 heap].
    unfold bind at 1. rewrite store_pair_again by done.
    unfold bind at 1. rewrite store_pair_again by done.
    cbn [ret set_ip set_ip6 p_mac p_ip p_ip6 reads_of].
    by rewrite ?app_nil_r, ?app_nil_l.
  - unfold bind at 1. rewrite ntohs_ether_type_run. change (4 + 12) with 16.
    rewrite E16. destruct (inner =? ETHERTYPE_IPV6)%N.
    + unfold bind at 1. rewrite inet_ntop_run by (by right).
      change (sizeof_ether_header + sizeof_ip6_hdr + 4 + offsetof_nd_ns_target)
        with 66.
      destruct (field 66 16 mem) as [target|]; [|done].
      cbn [store_chars option_map mac_buffer ip ip6 heap].
      unfold bind at 1. rewrite store_pair_again by done.
      unfold bind at 1. rewrite store_pair_again by done.
      cbn [ret set_ip set_ip6 p_mac p_ip p_ip6 reads_of].
      by rewrite ?app_nil_r, ?app_nil_l.
    + cbn [ret option_map reads_of]. by rewrite ?app_nil_r, ?app_nil_l.
Qed.

(* ===================================================================== *)
(** ** The states [pcapRead] leaves behind *)
(* ===================================================================== *)

Lemma wf_init : wf init_state.
Proof. by left. Qed.

Lemma wf_after_alloc s : wf s -> wf (after_alloc s).
Proof.
  intros [Hn | (b & t & Hb & Ht)]; [by left|].
  right. exists b, t. split; [done|]. by apply lookup_app_l_Some.
Qed.

Section AfterVlan.

Variables (s : state) (shost : list byte) (f_ip f_ip6 : val).
Variables (t_ip t_ip6 : string).
Hypothesis Hwf : wf s.

Local Abbreviation mb := (mac_block (after_alloc s)).
Local Abbreviation s' := (after_vlan s shost f_ip f_ip6 t_ip t_ip6).

Lemma mac_block_in_range :
  mb < length (heap (after_alloc s) ++
               if decide (mac_buffer (after_alloc s) = Vnull)
               then [Ouninit] else []).
Proof.
  unfold mac_block. cbn [after_alloc mac_buffer heap].
  destruct Hwf as [Hn | (b & t & Hb & Ht)].
  - rewrite Hn. rewrite !length_app. simpl. lia.
  - rewrite Hb. apply lookup_lt_Some in Ht. rewrite !length_app. lia.
Qed.

Lemma after_vlan_mac_buffer : mac_buffer s' = Vptr (Lheap mb).
Proof. reflexivity. Qed.

Lemma after_vlan_pair :
  heap s' !! length (heap s)
  = Some (Opair (mkPair (Vptr (Lheap mb)) f_ip f_ip6)).
Proof.
  unfold after_vlan. cbn [heap after_ether_mac mac_buffer].
  apply list_lookup_insert_eq. rewrite length_insert.
  rewrite length_app. cbn [after_alloc heap]. rewrite length_app.
  simpl. lia.
Qed.

Lemma after_vlan_text : heap s' !! mb = Some (Ochars (mac_text shost)).
Proof.
  unfold after_vlan. cbn [heap after_ether_mac mac_buffer].
  rewrite list_lookup_insert_ne
    by (intros E; by apply (mac_block_after_alloc s Hwf)).
  apply list_lookup_insert_eq, mac_block_in_range.
Qed.

Lemma after_vlan_frame j :
  j < length (heap s) -> mac_buffer s <> Vptr (Lheap j) ->
  heap s' !! j = heap s !! j.
Proof.
  intros Hj Hne. unfold after_vlan.
  cbn [heap after_ether_mac mac_buffer].
  rewrite list_lookup_insert_ne by lia.
  rewrite list_lookup_insert_ne.
  - cbn [after_alloc heap]. rewrite <- app_assoc. by apply lookup_app_l.
  - unfold mac_block. cbn [after_alloc mac_buffer heap].
    destruct Hwf as [Hn | (b & t & Hb & Ht)].
    + rewrite Hn, length_app. simpl. lia.
    + rewrite Hb. intros ->. by rewrite Hb in Hne.
Qed.

Lemma after_vlan_keeps_mac_buffer :
  mac_buffer s <> Vnull -> mac_buffer s' = mac_buffer s.
Proof.
  intros Hne. destruct Hwf as [Hn | (b & t & Hb & Ht)]; [done|].
  unfold after_vlan.
  cbn [after_alloc after_ether_mac mac_buffer heap].
  unfold mac_block. cbn [after_alloc mac_buffer]. by rewrite Hb.
Qed.

Lemma after_vlan_length : length (heap s) < length (heap s').
Proof. apply lookup_lt_Some with (1 := after_vlan_pair). Qed.

Lemma wf_after_vlan : wf s'.
Proof.
  right. exists mb, (mac_text shost). split; [done|].
  apply after_vlan_text.
Qed.

End AfterVlan.

Lemma wf_outcome p s : wf s -> wf (snd (fst (outcome_of p s))).
Proof.
  intros Hwf. destruct p; cbn [outcome_of fst snd];
    auto using wf_after_alloc, wf_after_vlan.
Qed.

(** Every call ends in one of the outcomes above. *)
Lemma pcapRead_outcome next s r s' reads :
  wf s ->
  pcapRead next s = Some (r, s', reads) ->
  (next = None /\ r = Vnull /\ s' = after_alloc s /\ reads = []) \/
  (exists c p, next = Some c /\ path_of (memory c) = Some p /\
               outcome_of p s = (r, s', reads)).
Proof.
  intros Hwf H. destruct next as [c|].
  - right. rewrite pcapRead_run in H by done.
    destruct (path_of (memory c)) as [p|] eqn:Ep; [|done].
    cbn [option_map] in H. injection H as H. by exists c, p.
  - left. rewrite pcapRead_no_packet in H. by injection H as <- <- <-.
Qed.

Lemma wf_pcapRead next s r s' reads :
  wf s -> pcapRead next s = Some (r, s', reads) -> wf s'.
Proof.
  intros Hwf H.
  destruct (pcapRead_outcome _ _ _ _ _ Hwf H)
    as [(_ & _ & -> & _) | (c & p & _ & _ & Ho)].
  - by apply wf_after_alloc.
  - pose proof (wf_outcome p s Hwf) as Hw. by rewrite Ho in Hw.
Qed.

(** A result is an old block, and not the one [mac_buffer] points at. *)
Lemma is_result_block s b pr :
  wf s -> heap s !! b = Some (Opair pr) ->
  b < length (heap s) /\ mac_buffer s <> Vptr (Lheap b).
Proof.
  intros Hwf Hb. split; [by eapply lookup_lt_Some|].
  destruct Hwf as [Hn | (b' & t & Hb' & Ht)]; [by rewrite Hn|].
  rewrite Hb'. intros [= ->]. congruence.
Qed.

(* ===================================================================== *)
(** ** Which path a capture takes *)
(* ===================================================================== *)

Lemma field_drop k off n (mem : list byte) bs :
  0 < n ->
  field off n (drop k mem) = Some bs -> field (k + off) n mem = Some bs.
Proof.
  intros Hn. unfold field. rewrite length_drop, drop_drop.
  repeat case_decide; try done; lia.
Qed.

Lemma field_defined off n (mem : list byte) :
  off + n <= length mem -> field off n mem = Some (take n (drop off mem)).
Proof. intros H. unfold field. by case_decide. Qed.

(** Inside the frame, memory and frame hold the same bytes. *)
Lemma field_app_inside off n (f sl : list byte) :
  off + n <= length f -> field off n (f ++ sl) = field off n f.
Proof.
  intros H. rewrite (field_app off n f sl (take n (drop off f))); [|].
  - by rewrite field_defined.
  - by apply field_defined.
Qed.

Lemma ether_type_at_length mem off ty :
  ether_type_at mem off = Some ty -> off + 2 <= length mem.
Proof.
  unfold ether_type_at. destruct (field off 2 mem) eqn:E; [|done].
  intros _. by apply field_Some in E as (? & _).
Qed.

Lemma ether_type_at_app_inside (f sl : list byte) off :
  off + 2 <= length f -> ether_type_at (f ++ sl) off = ether_type_at f off.
Proof. intros H. unfold ether_type_at. by rewrite field_app_inside. Qed.

Lemma path_not_vlan mem ty :
  ether_type_at mem 12 = Some ty -> ty <> ETHERTYPE_VLAN ->
  path_of mem = Some NotVlan.
Proof.
  intros H Hne. unfold path_of. rewrite H.
  apply N.eqb_neq in Hne. by rewrite Hne.
Qed.

Lemma path_arp mem shost spa :
  ether_type_at mem 12 = Some ETHERTYPE_VLAN ->
  ether_type_at mem 16 = Some ETHERTYPE_ARP ->
  field 6 6 mem = Some shost ->
  field 32 4 mem = Some spa ->
  path_of mem = Some (InnerArp shost spa).
Proof. intros H12 H16 H6 H32. unfold path_of. by rewrite H12, H6, H16, H32. Qed.

Lemma path_ipv6 mem shost target :
  ether_type_at mem 12 = Some ETHERTYPE_VLAN ->
  ether_type_at mem 16 = Some ETHERTYPE_IPV6 ->
  field 6 6 mem = Some shost ->
  field 66 16 mem = Some target ->
  path_of mem = Some (InnerIpv6 shost target).
Proof. intros H12 H16 H6 H66. unfold path_of. by rewrite H12, H6, H16, H66. Qed.

Lemma path_other mem ty :
  ether_type_at mem 12 = Some ETHERTYPE_VLAN ->
  ether_type_at mem 16 = Some ty ->
  ty <> ETHERTYPE_ARP -> ty <> ETHERTYPE_IPV6 ->
  exists shost, field 6 6 mem = Some shost /\
                path_of mem = Some (OtherInner shost).
Proof.
  intros H12 H16 Ha Hi. apply ether_type_at_length in H16 as Hlen.
  exists (take 6 (drop 6 mem)). rewrite field_defined by lia. split; [done|].
  unfold path_of. rewrite H12, H16, field_defined by lia.
  apply N.eqb_neq in Ha, Hi. by rewrite Ha, Hi.
Qed.

(** The EtherTypes behind a path, read back from the memory. *)
Lemma path_of_inv mem p :
  path_of mem = Some p ->
  match p with
  | NotVlan =>
      exists ty, ether_type_at mem 12 = Some ty /\ ty <> ETHERTYPE_VLAN
  | OtherInner shost =>
      ether_type_at mem 12 = Some ETHERTYPE_VLAN /\
      field 6 6 mem = Some shost /\
      exists ty, ether_type_at mem 16 = Some ty /\
                 ty <> ETHERTYPE_ARP /\ ty <> ETHERTYPE_IPV6
  | InnerArp shost spa =>
      ether_type_at mem 12 = Some ETHERTYPE_VLAN /\
      field 6 6 mem = Some shost /\
      ether_type_at mem 16 = Some ETHERTYPE_ARP /\
      field 32 4 mem = Some spa
  | InnerIpv6 shost target =>
      ether_type_at mem 12 = Some ETHERTYPE_VLAN /\
      field 6 6 mem = Some shost /\
      ether_type_at mem 16 = Some ETHERTYPE_IPV6 /\
      field 66 16 mem = Some target
  end.
Proof.
  unfold path_of.
  destruct (ether_type_at mem 12) as [outer|]; [|done].
  destruct (N.eqb_spec outer ETHERTYPE_VLAN) as [->|Hne]; cbn [negb].
  2:{ intros [= <-]. by exists outer. }
  destruct (field 6 6 mem) as [shost|]; [|done].
  destruct (ether_type_at mem 16) as [inner|]; [|done].
  destruct (N.eqb_spec inner ETHERTYPE_ARP) as [->|Ha].
  { destruct (field 32 4 mem); [|done]. by intros [= <-]. }
  destruct (N.eqb_spec inner ETHERTYPE_IPV6) as [->|Hi].
  { destruct (field 66 16 mem); [|done]. by intros [= <-]. }
  intros [= <-]. split; [done|]. split; [done|]. by exists inner.
Qed.

Lemma ether_type_at_defined (mem : list byte) off :
  off + 2 <= length mem -> exists ty, ether_type_at mem off = Some ty.
Proof.
  intros H. unfold ether_type_at. rewrite field_defined by done.
  assert (Hl : length (take 2 (drop off mem)) = 2)
    by (rewrite length_take, length_drop; lia).
  destruct (take 2 (drop off mem)) as [|hi [|lo [|? ?]]]; try done.
  by eexists.
Qed.

Lemma path_of_app (f sl : list byte) p :
  path_of f = Some p -> path_of (f ++ sl) = Some p.
Proof.
  intros H. apply path_of_inv in H. destruct p.
  - destruct H as (ty & H12 & Hne).
    eapply path_not_vlan; [by apply ether_type_at_app|done].
  - destruct H as (H12 & H6 & ty & H16 & Ha & Hi).
    destruct (path_other (f ++ sl) ty) as (shost' & H6' & Hp);
      auto using ether_type_at_app.
    rewrite (field_app _ _ _ sl _ H6) in H6'. by injection H6' as <-.
  - destruct H as (H12 & H6 & H16 & H32).
    apply path_arp; auto using ether_type_at_app, field_app.
  - destruct H as (H12 & H6 & H16 & H66).
    apply path_ipv6; auto using ether_type_at_app, field_app.
Qed.

Lemma reads_within p n :
  Forall (fun i => i < n) (reads_of p) <-> required_length p <= n.
Proof.
  destruct p; cbn [reads_of required_length seq app];
    rewrite ?Forall_cons, Forall_nil; lia.
Qed.

Lemma long_enough_path f :
  long_enough f ->
  exists p, path_of f = Some p /\ required_length p <= length f.
Proof.
  unfold long_enough, required_length_of, path_of. intros H.
  destruct (ether_type_at f 12) as [outer|] eqn:E12.
  2:{ destruct (ether_type_at_defined f 12) as (ty & Hty); [lia|congruence]. }
  destruct (negb (outer =? ETHERTYPE_VLAN)%N); [by exists NotVlan|].
  destruct (ether_type_at f 16) as [inner|] eqn:E16.
  2:{ destruct (ether_type_at_defined f 16) as (ty & Hty); [lia|congruence]. }
  apply ether_type_at_length in E16 as Hlen.
  rewrite field_defined by lia.
  destruct (inner =? ETHERTYPE_ARP)%N.
  { rewrite field_defined by lia. by eexists. }
  destruct (inner =? ETHERTYPE_IPV6)%N.
  { rewrite field_defined by lia. by eexists. }
  by eexists.
Qed.

Lemma path_long_enough (f sl : list byte) p :
  path_of (f ++ sl) = Some p -> required_length p <= length f ->
  long_enough f.
Proof.
  intros Hp Hlen. apply path_of_inv in Hp.
  unfold long_enough, required_length_of.
  destruct p; cbn [required_length] in Hlen.
  - destruct Hp as (ty & H12 & Hne).
    rewrite ether_type_at_app_inside in H12 by lia. rewrite H12.
    apply N.eqb_neq in Hne. by rewrite Hne.
  - destruct Hp as (H12 & _ & ty & H16 & Ha & Hi).
    rewrite ether_type_at_app_inside in H12, H16 by lia. rewrite H12, H16.
    apply N.eqb_neq in Ha, Hi. by rewrite Ha, Hi.
  - destruct Hp as (H12 & _ & H16 & _).
    rewrite ether_type_at_app_inside in H12, H16 by lia. by rewrite H12, H16.
  - destruct Hp as (H12 & _ & H16 & _).
    rewrite ether_type_at_app_inside in H12, H16 by lia. by rewrite H12, H16.
Qed.

(* ===================================================================== *)
(** ** Reading results *)
(* ===================================================================== *)

Lemma load_pair_after_vlan s shost f_ip f_ip6 t_ip t_ip6 :
  wf s ->
  load_pair (after_vlan s shost f_ip f_ip6 t_ip t_ip6)
    (Vptr (Lheap (length (heap s))))
  = Some (mkPair (Vptr (Lheap (mac_block (after_alloc s)))) f_ip f_ip6).
Proof. intros Hwf. unfold load_pair. by rewrite after_vlan_pair. Qed.

Lemma load_mac_after_vlan s shost f_ip f_ip6 t_ip t_ip6 :
  wf s ->
  load_chars (after_vlan s shost f_ip f_ip6 t_ip t_ip6)
    (Vptr (Lheap (mac_block (after_alloc s))))
  = Some (mac_text shost).
Proof. intros Hwf. unfold load_chars. by rewrite after_vlan_text. Qed.

Lemma view_arp s shost t_ip t_ip6 :
  wf s ->
  view (after_vlan s shost (Vptr Lip) Vnull t_ip t_ip6)
    (Vptr (Lheap (length (heap s))))
  = Some (mac_text shost, V4 t_ip).
Proof.
  intros Hwf. unfold view. rewrite load_pair_after_vlan by done.
  cbn [p_mac p_ip p_ip6]. by rewrite load_mac_after_vlan.
Qed.

Lemma view_ipv6 s shost t_ip t_ip6 :
  wf s ->
  view (after_vlan s shost Vnull (Vptr Lip6) t_ip t_ip6)
    (Vptr (Lheap (length (heap s))))
  = Some (mac_text shost, V6 t_ip6).
Proof.
  intros Hwf. unfold view. rewrite load_pair_after_vlan by done.
  cbn [p_mac p_ip p_ip6]. by rewrite load_mac_after_vlan.
Qed.

(* ===================================================================== *)
(** ** Properties of the decoder *)
(* ===================================================================== *)

(** C1, as the code has it.  [pcapRead] makes no length check.  When the
    frame is at least as long as the offsets of its own path (14 bytes; 18
    behind a VLAN marker; 36 for ARP; 82 for IPv6), the call returns, reads
    only offsets below the declared frame length and yields the same result
    whatever lies behind the frame in memory.  Conversely a call that
    stays below the declared frame length was given such a frame: on any
    shorter frame the reads leave the frame. *)
Theorem pcapRead_within_frame c s :
  wf s ->
  (long_enough (frame c) ->
   exists r s' reads,
     pcapRead (Some c) s = Some (r, s', reads) /\
     Forall (fun i => i < caplen c) reads /\
     forall sl,
       pcapRead (Some {| frame := frame c; slack := sl |}) s
       = Some (r, s', reads)) /\
  (forall r s' reads,
     pcapRead (Some c) s = Some (r, s', reads) ->
     Forall (fun i => i < caplen c) reads ->
     long_enough (frame c)).
Proof.
  intros Hwf. split.
  - intros Hlong. destruct (long_enough_path _ Hlong) as (p & Hp & Hlen).
    destruct (outcome_of p s) as [[r s'] reads] eqn:Ho.
    assert (Hreads : reads = reads_of p) by (destruct p; by injection Ho).
    exists r, s', reads. split; [|split].
    + rewrite pcapRead_run by done. unfold memory.
      rewrite (path_of_app _ (slack c) _ Hp). cbn [option_map]. by rewrite Ho.
    + rewrite Hreads. by apply reads_within.
    + intros sl. rewrite pcapRead_run by done. unfold memory. cbn [frame slack].
      rewrite (path_of_app _ sl _ Hp). cbn [option_map]. by rewrite Ho.
  - intros r s' reads Hrun Hin.
    rewrite pcapRead_run in Hrun by done. unfold memory in Hrun.
    destruct (path_of (frame c ++ slack c)) as [p|] eqn:Hp; [|done].
    cbn [option_map] in Hrun. injection Hrun as Hrun.
    assert (Hreads : reads = reads_of p) by (destruct p; by injection Hrun).
    rewrite Hreads in Hin. apply reads_within in Hin.
    by eapply path_long_enough.
Qed.

Lemma pcapRead_within_frame_witness :
  long_enough arp_frame /\
  exists r s' reads,
    pcapRead (Some (whole arp_frame)) init_state = Some (r, s', reads) /\
    Forall (fun i => i < 46) reads.
Proof.
  assert (Hlong : long_enough arp_frame) by (vm_compute; lia).
  split; [exact Hlong|].
  destruct (pcapRead_within_frame (whole arp_frame) init_state)
    as [Hin _]; [left; reflexivity|].
  destruct (Hin Hlong) as (r & s' & reads & Hrun & Hall & _).
  by exists r, s', reads.
Defined.

(** C1, counterexample.  A frame of 13 bytes is not answered with
    no-match: the bytes behind it in the capture buffer are decoded, and
    offsets beyond the declared length are read. *)
Lemma short_frame_decoded_past_its_end :
  caplen truncated_arp < 14 /\
  exists r s' reads,
    pcapRead (Some truncated_arp) init_state = Some (r, s', reads) /\
    r <> Vnull /\
    view s' r = Some ("aa:bb:cc:dd:ee:ff", V4 "10.0.0.5") /\
    Exists (fun i => caplen truncated_arp <= i) reads.
Proof.
  split; [vm_compute; lia|].
  eexists _, _, _. split; [vm_compute; reflexivity|].
  split; [discriminate|]. split; [reflexivity|].
  apply Exists_exists. exists 35. split; [|vm_compute; lia].
  apply list_elem_of_In. vm_compute. tauto.
Qed.

(** C2.  For a VLAN-tagged frame whose inner EtherType is ARP, [pcapRead]
    returns a pair whose [ip] text is the sender protocol address found at
    offset 14 of the ARP payload that starts at byte 18, whose [mac] text
    is made of bytes 6 to 11 of the frame, and whose [ip6] is null. *)
Theorem pcapRead_vlan_arp c s shost spa :
  wf s ->
  ether_type_at (frame c) 12 = Some ETHERTYPE_VLAN ->
  ether_type_at (frame c) 16 = Some ETHERTYPE_ARP ->
  field 6 6 (frame c) = Some shost ->
  field offsetof_arp_spa 4 (drop 18 (memory c)) = Some spa ->
  exists p s' pr,
    pcapRead (Some c) s
    = Some (p, s', seq 12 2 ++ seq 6 6 ++ seq 16 2 ++ seq 32 4) /\
    load_pair s' p = Some pr /\
    load_chars s' (p_mac pr) = Some (mac_text shost) /\
    load_chars s' (p_ip pr) = Some (inet_ntop4_text spa) /\
    p_ip6 pr = Vnull /\
    view s' p = Some (mac_text shost, V4 (inet_ntop4_text spa)).
Proof.
  intros Hwf H12 H16 H6 Hspa.
  apply field_drop in Hspa; [|lia]. change (18 + offsetof_arp_spa) with 32 in Hspa.
  assert (Hp : path_of (memory c) = Some (InnerArp shost spa)).
  { unfold memory in *.
    apply path_arp; auto using ether_type_at_app, field_app. }
  rewrite pcapRead_run, Hp by done. cbn [option_map outcome_of reads_of].
  eexists _, _, _. split; [reflexivity|].
  rewrite load_pair_after_vlan by done. split; [reflexivity|].
  cbn [p_mac p_ip p_ip6]. rewrite load_mac_after_vlan by done.
  rewrite view_arp by done. done.
Qed.

Lemma pcapRead_vlan_arp_witness :
  field offsetof_arp_sha 6 (drop 18 arp_frame)
  = Some [x02; x00; x00; x00; x00; x01] /\
  exists p s' pr,
    pcapRead (Some (whole arp_frame)) init_state
    = Some (p, s', [12; 13; 6; 7; 8; 9; 10; 11; 16; 17; 32; 33; 34; 35]) /\
    load_pair s' p = Some pr /\
    load_chars s' (p_mac pr) = Some "aa:bb:cc:dd:ee:ff" /\
    load_chars s' (p_ip pr) = Some "10.0.0.5" /\
    p_ip6 pr = Vnull /\
    view s' p = Some ("aa:bb:cc:dd:ee:ff", V4 "10.0.0.5").
Proof.
  split; [reflexivity|].
  exact (pcapRead_vlan_arp (whole arp_frame) init_state
           [xaa; xbb; xcc; xdd; xee; xff] [x0a; x00; x00; x05]
           (or_introl eq_refl) eq_refl eq_refl eq_refl eq_refl).
Defined.

(** C3, as the code has it.  For a VLAN-tagged frame whose inner EtherType
    is IPv6, [pcapRead] takes offset 58 (14 + 4 + 40) as the start of a
    neighbour solicitation and reads the 16 bytes of its target field,
    which lies 8 bytes further on, at offset 66.  It returns a pair whose
    [ip6] text is that address, whose [mac] text is made of bytes 6 to 11
    of the frame and whose [ip] is null.  No byte of the ICMPv6 header at
    offsets 58 to 65 is read. *)
Theorem pcapRead_vlan_ipv6 c s shost target :
  wf s ->
  ether_type_at (frame c) 12 = Some ETHERTYPE_VLAN ->
  ether_type_at (frame c) 16 = Some ETHERTYPE_IPV6 ->
  field 6 6 (frame c) = Some shost ->
  field offsetof_nd_ns_target 16 (drop 58 (memory c)) = Some target ->
  exists p s' pr,
    pcapRead (Some c) s
    = Some (p, s',
            seq 12 2 ++ seq 6 6 ++ seq 16 2 ++ seq 16 2 ++ seq 66 16) /\
    load_pair s' p = Some pr /\
    load_chars s' (p_mac pr) = Some (mac_text shost) /\
    load_chars s' (p_ip6 pr) = Some (inet_ntop6_text target) /\
    p_ip pr = Vnull /\
    view s' p = Some (mac_text shost, V6 (inet_ntop6_text target)).
Proof.
  intros Hwf H12 H16 H6 Htgt.
  apply field_drop in Htgt; [|lia].
  change (58 + offsetof_nd_ns_target) with 66 in Htgt.
  assert (Hp : path_of (memory c) = Some (InnerIpv6 shost target)).
  { unfold memory in *.
    apply path_ipv6; auto using ether_type_at_app, field_app. }
  rewrite pcapRead_run, Hp by done. cbn [option_map outcome_of reads_of].
  eexists _, _, _. split; [reflexivity|].
  rewrite load_pair_after_vlan by done. split; [reflexivity|].
  cbn [p_mac p_ip p_ip6]. rewrite load_mac_after_vlan by done.
  rewrite view_ipv6 by done. done.
Qed.

Lemma pcapRead_vlan_ipv6_witness :
  exists p s' pr,
    pcapRead (Some (whole ns_frame)) init_state
    = Some (p, s',
            [12; 13; 6; 7; 8; 9; 10; 11; 16; 17; 16; 17;
             66; 67; 68; 69; 70; 71; 72; 73; 74; 75; 76; 77; 78; 79; 80; 81])
    /\
    load_pair s' p = Some pr /\
    load_chars s' (p_mac pr) = Some "aa:bb:cc:dd:ee:ff" /\
    load_chars s' (p_ip6 pr) = Some "fe80::1" /\
    p_ip pr = Vnull /\
    view s' p = Some ("aa:bb:cc:dd:ee:ff", V6 "fe80::1").
Proof.
  exact (pcapRead_vlan_ipv6 (whole ns_frame) init_state
           [xaa; xbb; xcc; xdd; xee; xff]
           [xfe; x80; x00; x00; x00; x00; x00; x00;
            x00; x00; x00; x00; x00; x00; x00; x01]
           (or_introl eq_refl) eq_refl eq_refl eq_refl eq_refl).
Defined.

(** C3, counterexample.  On the neighbour solicitation for fe80::1 the
    address returned is not the text of the 16 bytes at offset 58, and
    offset 58 is not read at all. *)
Lemma ns_target_is_not_at_offset_58 :
  ether_type_at ns_frame 12 = Some ETHERTYPE_VLAN /\
  ether_type_at ns_frame 16 = Some ETHERTYPE_IPV6 /\
  exists p s' reads at58,
    pcapRead (Some (whole ns_frame)) init_state = Some (p, s', reads) /\
    field 58 16 ns_frame = Some at58 /\
    inet_ntop6_text at58 = "8700:1234:0:0:fe80::" /\
    view s' p = Some ("aa:bb:cc:dd:ee:ff", V6 "fe80::1") /\
    view s' p <> Some ("aa:bb:cc:dd:ee:ff", V6 (inet_ntop6_text at58)) /\
    ~ In 58 reads.
Proof.
  split; [reflexivity|]. split; [reflexivity|].
  eexists _, _, _, _. split; [vm_compute; reflexivity|].
  split; [vm_compute; reflexivity|]. split; [vm_compute; reflexivity|].
  split; [vm_compute; reflexivity|]. split; [vm_compute; discriminate|].
  vm_compute. intros H. repeat (destruct H as [H|H]; [discriminate|]). done.
Qed.

(** C4.  A frame whose first EtherType is not the VLAN marker, and a VLAN
    frame whose inner EtherType is neither ARP nor IPv6, make [pcapRead]
    return the null pointer: the call returns, and with nothing else.
    A pair is returned only for a frame whose first EtherType is the VLAN
    marker and whose inner EtherType is ARP or IPv6. *)
Theorem pcapRead_no_match c s :
  wf s ->
  (forall ty,
     ether_type_at (frame c) 12 = Some ty -> ty <> ETHERTYPE_VLAN ->
     exists s' reads, pcapRead (Some c) s = Some (Vnull, s', reads)) /\
  (forall ty,
     ether_type_at (frame c) 12 = Some ETHERTYPE_VLAN ->
     ether_type_at (frame c) 16 = Some ty ->
     ty <> ETHERTYPE_ARP -> ty <> ETHERTYPE_IPV6 ->
     exists s' reads, pcapRead (Some c) s = Some (Vnull, s', reads)) /\
  (forall r s' reads,
     pcapRead (Some c) s = Some (r, s', reads) -> r <> Vnull ->
     (forall ty, ether_type_at (frame c) 12 = Some ty ->
                 ty = ETHERTYPE_VLAN) /\
     (forall ty, ether_type_at (frame c) 16 = Some ty ->
                 ty = ETHERTYPE_ARP \/ ty = ETHERTYPE_IPV6)).
Proof.
  intros Hwf. split; [|split].
  - intros ty H12 Hne.
    rewrite pcapRead_run by done. unfold memory.
    rewrite (path_not_vlan _ ty) by auto using ether_type_at_app.
    by eexists _, _.
  - intros ty H12 H16 Ha Hi.
    rewrite pcapRead_run by done. unfold memory.
    destruct (path_other (frame c ++ slack c) ty) as (shost & _ & ->);
      auto using ether_type_at_app.
    by eexists _, _.
  - intros r s' reads Hrun Hr.
    rewrite pcapRead_run in Hrun by done. unfold memory in Hrun.
    destruct (path_of (frame c ++ slack c)) as [p|] eqn:Hp; [|done].
    cbn [option_map] in Hrun. apply path_of_inv in Hp.
    assert (Hsame : forall off ty,
               ether_type_at (frame c) off = Some ty ->
               ether_type_at (frame c ++ slack c) off = Some ty)
      by auto using ether_type_at_app.
    destruct p; cbn [outcome_of] in Hrun; injection Hrun as <- _ _;
      try done.
    + destruct Hp as (H12 & _ & H16 & _). split.
      * intros ty Hty. apply Hsame in Hty. congruence.
      * intros ty Hty. apply Hsame in Hty. left. congruence.
    + destruct Hp as (H12 & _ & H16 & _). split.
      * intros ty Hty. apply Hsame in Hty. congruence.
      * intros ty Hty. apply Hsame in Hty. right. congruence.
Qed.

Lemma pcapRead_no_match_witness :
  (exists s' reads,
     pcapRead (Some (whole untagged_arp_frame)) init_state
     = Some (Vnull, s', reads)) /\
  (exists s' reads,
     pcapRead (Some (whole ipv4_frame)) init_state
     = Some (Vnull, s', reads)).
Proof.
  split.
  - destruct (pcapRead_no_match (whole untagged_arp_frame) init_state)
      as (Hnot & _ & _); [left; reflexivity|].
    apply (Hnot ETHERTYPE_ARP); [reflexivity|discriminate].
  - destruct (pcapRead_no_match (whole ipv4_frame) init_state)
      as (_ & Hother & _); [left; reflexivity|].
    apply (Hother 0x0800%N);
      [reflexivity|reflexivity|discriminate|discriminate].
Defined.

(** C5, as the code has it.  A call changes more than its result.  It
    keeps the invariant of the globals, allocates a block for the pair
    whatever the outcome, leaves every heap block that existed before
    untouched except the one [mac_buffer] points at, and never moves
    [mac_buffer] once it is set.  A call that returns null leaves [ip] and
    [ip6] as they were.  A returned pair is the block allocated by this
    call; its [mac] is the process-wide [mac_buffer] and its address is
    the static array [ip] or [ip6], so no string of a result is allocated
    for that result.  A call on a frame with the VLAN marker sets
    [mac_buffer] and rewrites the text behind it to the source address of
    that frame, which is then what every pair of an earlier call reads as
    its MAC.  A call that returns a pair rewrites [ip] with the ARP sender
    protocol address, or [ip6] with the neighbour-solicitation target, and
    leaves the other array alone; it does so on every frame with the
    VLAN marker whose inner EtherType is ARP, or IPv6. *)
Theorem pcapRead_footprint next s r s' reads :
  wf s ->
  pcapRead next s = Some (r, s', reads) ->
  wf s' /\
  length (heap s) < length (heap s') /\
  (forall b, b < length (heap s) -> mac_buffer s <> Vptr (Lheap b) ->
             heap s' !! b = heap s !! b) /\
  (mac_buffer s <> Vnull -> mac_buffer s' = mac_buffer s) /\
  (r = Vnull -> ip s' = ip s /\ ip6 s' = ip6 s) /\
  (r <> Vnull ->
   exists pr,
     r = Vptr (Lheap (length (heap s))) /\
     load_pair s' r = Some pr /\
     p_mac pr = mac_buffer s' /\
     ((p_ip pr = Vptr Lip /\ p_ip6 pr = Vnull) \/
      (p_ip pr = Vnull /\ p_ip6 pr = Vptr Lip6))) /\
  (forall c shost,
     next = Some c ->
     ether_type_at (frame c) 12 = Some ETHERTYPE_VLAN ->
     field 6 6 (frame c) = Some shost ->
     mac_buffer s' <> Vnull /\
     load_chars s' (mac_buffer s') = Some (mac_text shost) /\
     forall b0 pr0,
       heap s !! b0 = Some (Opair pr0) ->
       p_mac pr0 = mac_buffer s -> mac_buffer s <> Vnull ->
       heap s' !! b0 = Some (Opair pr0) /\
       load_chars s' (p_mac pr0) = Some (mac_text shost)) /\
  (r <> Vnull ->
   exists c pr,
     next = Some c /\ load_pair s' r = Some pr /\
     ((p_ip pr = Vptr Lip /\
       exists spa, field 32 4 (memory c) = Some spa /\
                   ip s' = inet_ntop4_text spa /\ ip6 s' = ip6 s) \/
      (p_ip6 pr = Vptr Lip6 /\
       exists target, field 66 16 (memory c) = Some target /\
                      ip6 s' = inet_ntop6_text target /\ ip s' = ip s))) /\
  (forall c spa,
     next = Some c ->
     ether_type_at (frame c) 12 = Some ETHERTYPE_VLAN ->
     ether_type_at (frame c) 16 = Some ETHERTYPE_ARP ->
     field 32 4 (memory c) = Some spa ->
     r <> Vnull /\ ip s' = inet_ntop4_text spa /\ ip6 s' = ip6 s) /\
  (forall c target,
     next = Some c ->
     ether_type_at (frame c) 12 = Some ETHERTYPE_VLAN ->
     ether_type_at (frame c) 16 = Some ETHERTYPE_IPV6 ->
     field 66 16 (memory c) = Some target ->
     r <> Vnull /\ ip6 s' = inet_ntop6_text target /\ ip s' = ip s).
Proof.
  intros Hwf Hrun. split; [by eapply wf_pcapRead|].
  assert (Halloc :
    length (heap s) < length (heap (after_alloc s)) /\
    (forall b, b < length (heap s) -> mac_buffer s <> Vptr (Lheap b) ->
               heap (after_alloc s) !! b = heap s !! b) /\
    (mac_buffer s <> Vnull -> mac_buffer (after_alloc s) = mac_buffer s)).
  { cbn [after_alloc heap mac_buffer]. rewrite length_app. simpl.
    split; [lia|]. split; [|done]. intros b Hb _. by apply lookup_app_l. }
  assert (Hmac : forall x f_ip f_ip6 t_ip t_ip6 c shost,
    field 6 6 (memory c) = Some x ->
    field 6 6 (frame c) = Some shost ->
    let s1 := after_vlan s x f_ip f_ip6 t_ip t_ip6 in
    mac_buffer s1 <> Vnull /\
    load_chars s1 (mac_buffer s1) = Some (mac_text shost) /\
    forall b0 pr0,
      heap s !! b0 = Some (Opair pr0) ->
      p_mac pr0 = mac_buffer s -> mac_buffer s <> Vnull ->
      heap s1 !! b0 = Some (Opair pr0) /\
      load_chars s1 (p_mac pr0) = Some (mac_text shost)).
  { intros x f_ip f_ip6 t_ip t_ip6 c shost Hx Hf s1. subst s1.
    unfold memory in Hx. rewrite (field_app _ _ _ _ _ Hf) in Hx.
    injection Hx as <-.
    rewrite after_vlan_mac_buffer, load_mac_after_vlan by done.
    split; [done|]. split; [done|]. intros b0 pr0 Hb0 Hp0 Hset.
    destruct (is_result_block _ _ _ Hwf Hb0) as [Hlt Hne].
    rewrite after_vlan_frame by done. split; [done|].
    rewrite Hp0, <- (after_vlan_keeps_mac_buffer s shost f_ip f_ip6
                       t_ip t_ip6 Hwf Hset).
    rewrite after_vlan_mac_buffer. by apply load_mac_after_vlan. }
  assert (Hlift : forall c off ty,
            ether_type_at (frame c) off = Some ty ->
            ether_type_at (memory c) off = Some ty)
    by (intros; by apply ether_type_at_app).
  destruct (pcapRead_outcome _ _ _ _ _ Hwf Hrun)
    as [(-> & -> & -> & _) | (c & p & -> & Hp & Ho)].
  { destruct Halloc as (? & ? & ?). by repeat split. }
  apply path_of_inv in Hp.
  destruct p; cbn [outcome_of] in Ho; injection Ho as <- <- _.
  - destruct Halloc as (? & ? & ?). destruct Hp as (ty & H12 & Hne).
    do 5 (split; [done|]).
    split; [|split; [done|split]].
    + intros c' shost [= <-] Hv _. apply Hlift in Hv. congruence.
    + intros c' spa [= <-] Hv _ _. apply Hlift in Hv. congruence.
    + intros c' target [= <-] Hv _ _. apply Hlift in Hv. congruence.
  - destruct Hp as (_ & H6 & ty & H16 & Ha & Hi).
    split; [by apply after_vlan_length|].
    split; [intros; by apply after_vlan_frame|].
    split; [by apply after_vlan_keeps_mac_buffer|].
    do 2 (split; [done|]).
    split; [|split; [done|split]].
    + intros c' shost' [= <-] _ Hf. by apply (Hmac _ _ _ _ _ c).
    + intros c' spa [= <-] _ Hv _. apply Hlift in Hv. congruence.
    + intros c' target [= <-] _ Hv _. apply Hlift in Hv. congruence.
  - destruct Hp as (_ & H6 & H16 & H32).
    split; [by apply after_vlan_length|].
    split; [intros; by apply after_vlan_frame|].
    split; [by apply after_vlan_keeps_mac_buffer|].
    split; [done|]. split; [|split; [|split; [|split]]].
    + intros _. eexists. split; [done|].
      rewrite load_pair_after_vlan by done. split; [done|].
      split; [done|]. by left.
    + intros c' shost' [= <-] _ Hf. by apply (Hmac _ _ _ _ _ c).
    + intros _. eexists c, _. split; [done|].
      rewrite load_pair_after_vlan by done. split; [done|].
      left. split; [done|]. by exists spa.
    + intros c' spa' [= <-] _ _ Hs. rewrite H32 in Hs. by injection Hs as <-.
    + intros c' target [= <-] _ Hv _. apply Hlift in Hv.
      rewrite H16 in Hv. discriminate Hv.
  - destruct Hp as (_ & H6 & H16 & H66).
    split; [by apply after_vlan_length|].
    split; [intros; by apply after_vlan_frame|].
    split; [by apply after_vlan_keeps_mac_buffer|].
    split; [done|]. split; [|split; [|split; [|split]]].
    + intros _. eexists. split; [done|].
      rewrite load_pair_after_vlan by done. split; [done|].
      split; [done|]. by right.
    + intros c' shost' [= <-] _ Hf. by apply (Hmac _ _ _ _ _ c).
    + intros _. eexists c, _. split; [done|].
      rewrite load_pair_after_vlan by done. split; [done|].
      right. split; [done|]. by exists target.
    + intros c' spa [= <-] _ Hv _. apply Hlift in Hv.
      rewrite H16 in Hv. discriminate Hv.
    + intros c' target' [= <-] _ _ Hs. rewrite H66 in Hs.
      by injection Hs as <-.
Qed.

Lemma pcapRead_footprint_witness :
  wf state_after_arp /\
  length (heap init_state) < length (heap state_after_arp) /\
  (forall b, b < length (heap init_state) ->
             mac_buffer init_state <> Vptr (Lheap b) ->
             heap state_after_arp !! b = heap init_state !! b) /\
  (mac_buffer init_state <> Vnull ->
   mac_buffer state_after_arp = mac_buffer init_state) /\
  (Vptr (Lheap 0) = Vnull ->
   ip state_after_arp = ip init_state /\
   ip6 state_after_arp = ip6 init_state) /\
  (Vptr (Lheap 0) <> Vnull ->
   exists pr,
     Vptr (Lheap 0) = Vptr (Lheap (length (heap init_state))) /\
     load_pair state_after_arp (Vptr (Lheap 0)) = Some pr /\
     p_mac pr = mac_buffer state_after_arp /\
     ((p_ip pr = Vptr Lip /\ p_ip6 pr = Vnull) \/
      (p_ip pr = Vnull /\ p_ip6 pr = Vptr Lip6))) /\
  (forall c shost,
     Some (whole arp_frame) = Some c ->
     ether_type_at (frame c) 12 = Some ETHERTYPE_VLAN ->
     field 6 6 (frame c) = Some shost ->
     mac_buffer state_after_arp <> Vnull /\
     load_chars state_after_arp (mac_buffer state_after_arp)
     = Some (mac_text shost) /\
     forall b0 pr0,
       heap init_state !! b0 = Some (Opair pr0) ->
       p_mac pr0 = mac_buffer init_state ->
       mac_buffer init_state <> Vnull ->
       heap state_after_arp !! b0 = Some (Opair pr0) /\
       load_chars state_after_arp (p_mac pr0) = Some (mac_text shost)) /\
  (Vptr (Lheap 0) <> Vnull ->
   exists c pr,
     Some (whole arp_frame) = Some c /\
     load_pair state_after_arp (Vptr (Lheap 0)) = Some pr /\
     ((p_ip pr = Vptr Lip /\
       exists spa, field 32 4 (memory c) = Some spa /\
                   ip state_after_arp = inet_ntop4_text spa /\
                   ip6 state_after_arp = ip6 init_state) \/
      (p_ip6 pr = Vptr Lip6 /\
       exists target, field 66 16 (memory c) = Some target /\
                      ip6 state_after_arp = inet_ntop6_text target /\
                      ip state_after_arp = ip init_state))) /\
  (forall c spa,
     Some (whole arp_frame) = Some c ->
     ether_type_at (frame c) 12 = Some ETHERTYPE_VLAN ->
     ether_type_at (frame c) 16 = Some ETHERTYPE_ARP ->
     field 32 4 (memory c) = Some spa ->
     Vptr (Lheap 0) <> Vnull /\
     ip state_after_arp = inet_ntop4_text spa /\
     ip6 state_after_arp = ip6 init_state) /\
  (forall c target,
     Some (whole arp_frame) = Some c ->
     ether_type_at (frame c) 12 = Some ETHERTYPE_VLAN ->
     ether_type_at (frame c) 16 = Some ETHERTYPE_IPV6 ->
     field 66 16 (memory c) = Some target ->
     Vptr (Lheap 0) <> Vnull /\
     ip6 state_after_arp = inet_ntop6_text target /\
     ip state_after_arp = ip init_state).
Proof.
  apply (pcapRead_footprint (Some (whole arp_frame)) init_state
           (Vptr (Lheap 0)) state_after_arp
           [12; 13; 6; 7; 8; 9; 10; 11; 16; 17; 32; 33; 34; 35]).
  - left. reflexivity.
  - vm_compute. reflexivity.
Defined.

(** C5, counterexample.  After a second call the strings of the first
    result read as the addresses of the second frame: both results point
    at the same MAC buffer and at the same [ip] array. *)
Lemma later_call_overwrites_earlier_result :
  exists r1 s1 l1 r2 s2 l2 pr1 pr2,
    pcapRead (Some (whole arp_frame)) init_state = Some (r1, s1, l1) /\
    pcapRead (Some (whole arp_frame')) s1 = Some (r2, s2, l2) /\
    view s1 r1 = Some ("aa:bb:cc:dd:ee:ff", V4 "10.0.0.5") /\
    view s2 r1 = Some ("02:11:22:33:44:55", V4 "192.168.1.9") /\
    s1 <> init_state /\
    r1 <> r2 /\
    load_pair s2 r1 = Some pr1 /\ load_pair s2 r2 = Some pr2 /\
    p_mac pr1 = p_mac pr2 /\ p_ip pr1 = p_ip pr2 /\
    p_mac pr1 <> Vnull /\ p_ip pr1 <> Vnull.
Proof.
  eexists _, _, _, _, _, _, _, _.
  split; [vm_compute; reflexivity|]. split; [vm_compute; reflexivity|].
  split; [reflexivity|]. split; [reflexivity|].
  split; [discriminate|]. split; [discriminate|].
  split; [reflexivity|]. split; [reflexivity|].
  split; [reflexivity|]. split; [reflexivity|].
  split; discriminate.
Qed.

Lemma block_lt_ne a b : a < b -> Vptr (Lheap a) <> Vptr (Lheap b).
Proof. intros H [= ->]. lia. Qed.

(** Two calls in a row on frames with the same source address: both pair
    blocks end up with the same field values. *)
Lemma two_pairs s shost f_ip f_ip6 t4 t6 t4' t6' :
  wf s ->
  let s1 := after_vlan s shost f_ip f_ip6 t4 t6 in
  let s2 := after_vlan s1 shost f_ip f_ip6 t4' t6' in
  length (heap s) < length (heap s1) /\
  load_pair s2 (Vptr (Lheap (length (heap s))))
  = Some (mkPair (mac_buffer s1) f_ip f_ip6) /\
  load_pair s2 (Vptr (Lheap (length (heap s1))))
  = Some (mkPair (mac_buffer s1) f_ip f_ip6).
Proof.
  intros Hwf s1 s2.
  assert (Hwf1 : wf s1) by by apply wf_after_vlan.
  assert (Hlen : length (heap s) < length (heap s1))
    by by apply after_vlan_length.
  split; [done|]. split.
  - unfold load_pair. subst s2. rewrite after_vlan_frame; [|done|done|].
    + subst s1. by rewrite after_vlan_pair.
    + subst s1. rewrite after_vlan_mac_buffer. intros [= E].
      by apply (mac_block_after_alloc s Hwf).
  - subst s2. by rewrite load_pair_after_vlan.
Qed.

(** C6, as the code has it.  Reading the same capture twice gives the
    same outcome both times, null or not, with equal MAC and address
    texts and the same reads.  The two pairs are distinct blocks, but their
    [mac], [ip] and [ip6] fields hold the same pointers: the texts of the
    two results share their storage. *)
Theorem pcapRead_same_frame_twice c s r1 s1 l1 :
  wf s ->
  pcapRead (Some c) s = Some (r1, s1, l1) ->
  exists r2 s2,
    pcapRead (Some c) s1 = Some (r2, s2, l1) /\
    (r1 = Vnull <-> r2 = Vnull) /\
    view s2 r2 = view s1 r1 /\
    (r1 <> Vnull ->
     is_Some (view s1 r1) /\
     r1 <> r2 /\
     exists pr1 pr2,
       load_pair s2 r1 = Some pr1 /\ load_pair s2 r2 = Some pr2 /\
       p_mac pr1 = p_mac pr2 /\ p_ip pr1 = p_ip pr2 /\
       p_ip6 pr1 = p_ip6 pr2 /\
       is_Some (load_chars s2 (p_mac pr1))).
Proof.
  intros Hwf Hrun.
  assert (Hwf1 : wf s1) by by eapply wf_pcapRead.
  rewrite pcapRead_run in Hrun by done. rewrite pcapRead_run by done.
  destruct (path_of (memory c)) as [p|]; [|done].
  cbn [option_map] in *. injection Hrun as Ho.
  destruct p; cbn [outcome_of] in Ho |- *; injection Ho as <- Hs1 <-.
  - eexists _, _. split; [done|]. by repeat split.
  - eexists _, _. split; [done|]. by repeat split.
  - rewrite <- Hs1 in Hwf1 |- *.
    destruct (two_pairs s shost (Vptr Lip) Vnull (inet_ntop4_text spa) (ip6 s)
                (inet_ntop4_text spa)
                (ip6 (after_vlan s shost (Vptr Lip) Vnull
                        (inet_ntop4_text spa) (ip6 s))) Hwf)
      as (Hlen & Hp1 & Hp2).
    eexists _, _. split; [done|]. split; [done|].
    rewrite !view_arp by done. split; [done|]. intros _.
    split; [by eexists|]. split; [by apply block_lt_ne|].
    eexists _, _. split; [exact Hp1|]. split; [exact Hp2|].
    cbn [p_mac p_ip p_ip6]. repeat split.
    eexists. apply (load_mac_after_vlan _ _ _ _ _ _ Hwf1).
  - rewrite <- Hs1 in Hwf1 |- *.
    destruct (two_pairs s shost Vnull (Vptr Lip6) (ip s)
                (inet_ntop6_text target)
                (ip (after_vlan s shost Vnull (Vptr Lip6) (ip s)
                       (inet_ntop6_text target)))
                (inet_ntop6_text target) Hwf)
      as (Hlen & Hp1 & Hp2).
    eexists _, _. split; [done|]. split; [done|].
    rewrite !view_ipv6 by done. split; [done|]. intros _.
    split; [by eexists|]. split; [by apply block_lt_ne|].
    eexists _, _. split; [exact Hp1|]. split; [exact Hp2|].
    cbn [p_mac p_ip p_ip6]. repeat split.
    eexists. apply (load_mac_after_vlan _ _ _ _ _ _ Hwf1).
Qed.

Lemma pcapRead_same_frame_twice_witness :
  exists r2 s2,
    pcapRead (Some (whole arp_frame)) state_after_arp
    = Some (r2, s2, [12; 13; 6; 7; 8; 9; 10; 11; 16; 17; 32; 33; 34; 35]) /\
    (Vptr (Lheap 0) = Vnull <-> r2 = Vnull) /\
    view s2 r2 = view state_after_arp (Vptr (Lheap 0)) /\
    (Vptr (Lheap 0) <> Vnull ->
     is_Some (view state_after_arp (Vptr (Lheap 0))) /\
     Vptr (Lheap 0) <> r2 /\
     exists pr1 pr2,
       load_pair s2 (Vptr (Lheap 0)) = Some pr1 /\
       load_pair s2 r2 = Some pr2 /\
       p_mac pr1 = p_mac pr2 /\ p_ip pr1 = p_ip pr2 /\
       p_ip6 pr1 = p_ip6 pr2 /\
       is_Some (load_chars s2 (p_mac pr1))).
Proof.
  apply (pcapRead_same_frame_twice (whole arp_frame) init_state).
  - left. reflexivity.
  - vm_compute. reflexivity.
Defined.

(** C6, counterexample.  The two results of reading [arp_frame] twice
    hold the same [mac] pointer and the same [ip] pointer. *)
Lemma same_frame_twice_shares_strings :
  exists r1 s1 l1 r2 s2 l2 pr1 pr2,
    pcapRead (Some (whole arp_frame)) init_state = Some (r1, s1, l1) /\
    pcapRead (Some (whole arp_frame)) s1 = Some (r2, s2, l2) /\
    load_pair s2 r1 = Some pr1 /\ load_pair s2 r2 = Some pr2 /\
    p_mac pr1 = p_mac pr2 /\ p_mac pr1 = Vptr (Lheap 1) /\
    p_ip pr1 = p_ip pr2 /\ p_ip pr1 = Vptr Lip.
Proof.
  eexists _, _, _, _, _, _, _, _.
  split; [vm_compute; reflexivity|]. split; [vm_compute; reflexivity|].
  repeat split.
Qed.

(** C7.  A call returns either the null pointer, behind which there is no
    pair, or a pointer to a pair in which exactly one of [ip] and [ip6] is
    set, the other being null, and whose [mac] leads to a string. *)
Theorem pcapRead_one_address next s r s' reads :
  wf s ->
  pcapRead next s = Some (r, s', reads) ->
  (r = Vnull /\ load_pair s' r = None) \/
  (exists b pr,
     r = Vptr (Lheap b) /\
     heap s' !! b = Some (Opair pr) /\
     is_Some (load_chars s' (p_mac pr)) /\
     ((p_ip pr = Vptr Lip /\ p_ip6 pr = Vnull) \/
      (p_ip pr = Vnull /\ p_ip6 pr = Vptr Lip6))).
Proof.
  intros Hwf Hrun.
  destruct (pcapRead_outcome _ _ _ _ _ Hwf Hrun)
    as [(_ & -> & _ & _) | (c & p & _ & _ & Ho)]; [by left|].
  destruct p; cbn [outcome_of] in Ho; injection Ho as <- <- _;
    [by left|by left| |].
  - right. eexists _, _. split; [done|].
    split; [by apply after_vlan_pair|]. cbn [p_mac p_ip p_ip6].
    rewrite load_mac_after_vlan by done. split; [by eexists|by left].
  - right. eexists _, _. split; [done|].
    split; [by apply after_vlan_pair|]. cbn [p_mac p_ip p_ip6].
    rewrite load_mac_after_vlan by done. split; [by eexists|by right].
Qed.

Lemma pcapRead_one_address_witness :
  (Vptr (Lheap 0) = Vnull /\
   load_pair state_after_arp (Vptr (Lheap 0)) = None) \/
  (exists b pr,
     Vptr (Lheap 0) = Vptr (Lheap b) /\
     heap state_after_arp !! b = Some (Opair pr) /\
     is_Some (load_chars state_after_arp (p_mac pr)) /\
     ((p_ip pr = Vptr Lip /\ p_ip6 pr = Vnull) \/
      (p_ip pr = Vnull /\ p_ip6 pr = Vptr Lip6))).
Proof.
  apply (pcapRead_one_address (Some (whole arp_frame)) init_state
           (Vptr (Lheap 0)) state_after_arp
           [12; 13; 6; 7; 8; 9; 10; 11; 16; 17; 32; 33; 34; 35]).
  - left. reflexivity.
  - vm_compute. reflexivity.
Defined.

(* ===================================================================== *)
(** ** The MAC formatter *)
(* ===================================================================== *)

Lemma fmt_02x_octet_pair b : fmt_02x b = octet_pair b.
Proof. destruct b; reflexivity. Qed.

Lemma after_ether_mac_text s octets :
  wf s ->
  heap (after_ether_mac s octets) !! mac_block s
  = Some (Ochars (mac_text octets)).
Proof.
  intros Hwf. unfold after_ether_mac. cbn [heap].
  apply list_lookup_insert_eq. unfold mac_block.
  destruct Hwf as [Hn | (b & t & Hb & Ht)].
  - rewrite Hn, length_app. simpl. lia.
  - rewrite Hb, length_app. apply lookup_lt_Some in Ht. lia.
Qed.

(** C8.  [ether_mac] applied to six octets returns a string made of six
    pairs of lowercase hexadecimal digits, one pair per octet with the
    high nibble first, joined by colons. *)
Theorem ether_mac_text mem addr a0 a1 a2 a3 a4 a5 s :
  wf s ->
  field addr 6 mem = Some [a0; a1; a2; a3; a4; a5] ->
  exists p s',
    ether_mac mem addr s = Some (p, s', seq addr 6) /\
    load_chars s' p
    = Some (octet_pair a0 +:+ ":" +:+ octet_pair a1 +:+ ":" +:+
            octet_pair a2 +:+ ":" +:+ octet_pair a3 +:+ ":" +:+
            octet_pair a4 +:+ ":" +:+ octet_pair a5).
Proof.
  intros Hwf Hf. rewrite ether_mac_run, Hf by done.
  eexists _, _. split; [reflexivity|].
  unfold load_chars. rewrite after_ether_mac_text by done.
  unfold mac_text. cbn [fmap list_fmap]. by rewrite !fmt_02x_octet_pair.
Qed.

Lemma ether_mac_text_witness :
  exists p s',
    ether_mac (zeros 6) 0 init_state = Some (p, s', [0; 1; 2; 3; 4; 5]) /\
    load_chars s' p = Some "00:00:00:00:00:00".
Proof.
  exact (ether_mac_text (zeros 6) 0 x00 x00 x00 x00 x00 x00 init_state
           (or_introl eq_refl) eq_refl).
Defined.

(* ===================================================================== *)
(** ** The filter installer and the end of the stream *)
(* ===================================================================== *)

(** C9.  When the filter compiles and installs, [pcapFilter] reaches its
    closing brace without a [return] statement: the call has no defined
    value.  When compilation or installation fails it returns -1.  The
    sibling [pcapClose] does return 0 on success. *)
Theorem pcapFilter_success_has_no_value :
  pcapFilter accepting_handle "arp" = NoReturnValue /\
  pcapFilter rejecting_handle "arp" = Returned (-1) /\
  pcapFilter uninstallable_handle "arp" = Returned (-1) /\
  pcapClose (Some accepting_handle) = Returned 0.
Proof. repeat split. Qed.

(** C10.  Without a packet [pcapRead] returns the null pointer, the same
    value it returns for a frame without VLAN marker and for a VLAN frame
    whose inner EtherType is neither ARP nor IPv6.  For the frame without
    VLAN marker even the state left behind is the same. *)
Theorem pcapRead_end_of_stream c s :
  wf s ->
  pcapRead None s = Some (Vnull, after_alloc s, []) /\
  (forall ty,
     ether_type_at (frame c) 12 = Some ty -> ty <> ETHERTYPE_VLAN ->
     pcapRead (Some c) s = Some (Vnull, after_alloc s, [12; 13])) /\
  (forall ty,
     ether_type_at (frame c) 12 = Some ETHERTYPE_VLAN ->
     ether_type_at (frame c) 16 = Some ty ->
     ty <> ETHERTYPE_ARP -> ty <> ETHERTYPE_IPV6 ->
     exists s' reads, pcapRead (Some c) s = Some (Vnull, s', reads)).
Proof.
  intros Hwf. split; [reflexivity|]. split.
  - intros ty H12 Hne. rewrite pcapRead_run by done. unfold memory.
    by rewrite (path_not_vlan _ ty) by auto using ether_type_at_app.
  - intros ty H12 H16 Ha Hi. rewrite pcapRead_run by done. unfold memory.
    destruct (path_other (frame c ++ slack c) ty) as (shost & _ & ->);
      auto using ether_type_at_app.
    by eexists _, _.
Qed.

Lemma pcapRead_end_of_stream_witness :
  pcapRead None init_state = Some (Vnull, after_alloc init_state, []) /\
  pcapRead (Some (whole untagged_arp_frame)) init_state
  = Some (Vnull, after_alloc init_state, [12; 13]) /\
  exists s' reads,
    pcapRead (Some (whole ipv4_frame)) init_state = Some (Vnull, s', reads).
Proof.
  split; [|split].
  - apply (pcapRead_end_of_stream (whole ipv4_frame) init_state).
    left. reflexivity.
  - destruct (pcapRead_end_of_stream (whole untagged_arp_frame) init_state)
      as (_ & Hnot & _); [left; reflexivity|].
    apply (Hnot ETHERTYPE_ARP); [reflexivity|discriminate].
  - destruct (pcapRead_end_of_stream (whole ipv4_frame) init_state)
      as (_ & _ & Hother); [left; reflexivity|].
    apply (Hother 0x0800%N);
      [reflexivity|reflexivity|discriminate|discriminate].
Defined.

(* ===================================================================== *)
(** ** Further properties: the size of the texts *)
(* ===================================================================== *)

Lemma length_append (a b : string) :
  String.length (a +:+ b) = String.length a + String.length b.
Proof.
  induction a as [|c a IH]; [reflexivity|].
  change (String c a +:+ b) with (String c (a +:+ b)).
  cbn [String.length]. by rewrite IH.
Qed.

Lemma length_fmt_02x b : String.length (fmt_02x b) = 2.
Proof. destruct b; reflexivity. Qed.

Lemma length_fmt_u_byte b :
  1 <= String.length (fmt_u (Byte.to_N b)) <= 3.
Proof. destruct b; vm_compute; lia. Qed.

(** Joining [n] texts of bounded length with a one-character separator. *)
Lemma length_concat_bounds (sep : string) (lo hi : nat) (ts : list string) :
  String.length sep = 1 ->
  Forall (fun t => lo <= String.length t <= hi) ts ->
  ts <> [] ->
  length ts * lo + (length ts - 1) <= String.length (String.concat sep ts)
  /\ String.length (String.concat sep ts) <= length ts * hi + (length ts - 1).
Proof.
  intros Hsep Hall Hne. induction Hall as [|t ts Ht Hall IH]; [done|].
  destruct ts as [|t' ts'].
  - cbn. lia.
  - change (String.concat sep (t :: t' :: ts'))
      with (t +:+ sep +:+ String.concat sep (t' :: ts')).
    rewrite !length_append, Hsep.
    destruct IH as [IH1 IH2]; [done|]. cbn beta in Ht.
    cbn [length] in *. lia.
Qed.

Lemma length_mac_text octets :
  length octets = 6 -> String.length (mac_text octets) = 17.
Proof.
  intros Hlen. unfold mac_text.
  destruct (length_concat_bounds ":" 2 2 (fmt_02x <$> octets)) as [H1 H2].
  - reflexivity.
  - apply Forall_fmap, Forall_forall. intros b _. cbn. rewrite length_fmt_02x. lia.
  - destruct octets; [done|discriminate].
  - rewrite length_fmap, Hlen in H1, H2. lia.
Qed.

Lemma length_inet_ntop4_text octets :
  length octets = 4 ->
  7 <= String.length (inet_ntop4_text octets) <= 15.
Proof.
  intros Hlen. unfold inet_ntop4_text.
  destruct (length_concat_bounds "." 1 3
              ((fun b => fmt_u (Byte.to_N b)) <$> octets)) as [H1 H2].
  - reflexivity.
  - apply Forall_fmap, Forall_forall. intros b _. cbn. apply length_fmt_u_byte.
  - destruct octets; [done|discriminate].
  - rewrite length_fmap, Hlen in H1, H2. lia.
Qed.

Lemma all_from_spec count n P m :
  all_from count n P = true ->
  (n <= m)%N -> (m < n + N.of_nat count)%N -> P m = true.
Proof.
  revert n. induction count as [|count IH]; intros n Hall Hle Hlt; [lia|].
  cbn [all_from] in Hall. apply andb_prop in Hall as [Hn Hrest].
  destruct (N.eq_dec n m) as [->|Hne]; [done|].
  apply (IH (N.succ n)); [done|lia|lia].
Qed.

Lemma length_fmt_x_word w :
  (w < 65536)%N -> 1 <= String.length (fmt_x w) <= 4.
Proof.
  intros Hw.
  assert (Hall : all_from (N.to_nat 65536) 0
            (fun n => let k := String.length (fmt_x n) in
                      (1 <=? k) && (k <=? 4)) = true)
    by (vm_compute; reflexivity).
  apply (all_from_spec _ _ _ w) in Hall; [|lia|rewrite N2Nat.id; lia].
  cbn beta zeta in Hall. apply andb_prop in Hall as [H1 H2].
  apply Nat.leb_le in H1, H2. lia.
Qed.

Lemma encapsulated_ipv4_run best all i :
  encapsulated_ipv4 best all i = true -> can_encapsulate best = true.
Proof.
  unfold encapsulated_ipv4, can_encapsulate.
  destruct best as [[rb rl]|]; [|done].
  intros H. apply andb_prop in H as [H Hl]. apply andb_prop in H as [_ Hb].
  apply bool_decide_eq_true in Hb as ->.
  apply orb_prop in Hl as [Hl|Hl].
  - apply bool_decide_eq_true in Hl as ->. reflexivity.
  - apply andb_prop in Hl as [Hl _].
    apply bool_decide_eq_true in Hl as ->. reflexivity.
Qed.

Lemma length_print_words src all best ws i :
  length (drop 12 src) = 4 ->
  Forall (fun w => (w < 65536)%N) ws ->
  String.length (print_words src all best ws i)
  <= words_cost best ws i + (if can_encapsulate best then 11 else 0).
Proof.
  intros Hsrc Hws. revert i.
  induction Hws as [|w ws Hw Hws IH]; intros i; [cbn; lia|].
  cbn [print_words words_cost]. specialize (IH (S i)).
  destruct (in_run best i).
  - rewrite length_append. case_bool_decide; cbn [String.length]; lia.
  - rewrite length_append.
    assert (Hcolon : String.length (if bool_decide (i = 0) then "" else ":")
                     <= 1) by (case_bool_decide; cbn; lia).
    destruct (encapsulated_ipv4 best all i) eqn:He.
    + rewrite (encapsulated_ipv4_run _ _ _ He).
      pose proof (length_inet_ntop4_text _ Hsrc). lia.
    + rewrite length_append. pose proof (length_fmt_x_word w Hw). lia.
Qed.

Lemma words_cost_le best ws i : words_cost best ws i <= 5 * length ws.
Proof.
  revert i. induction ws as [|w ws IH]; intros i; [done|].
  cbn [words_cost length]. specialize (IH (S i)).
  destruct (in_run best i); lia.
Qed.

Lemma words_of_bounded bs n :
  length bs <= n -> Forall (fun w => (w < 65536)%N) (words_of bs).
Proof.
  revert bs. induction n as [|n IH]; intros bs Hlen.
  - destruct bs; [constructor|cbn in Hlen; lia].
  - destruct bs as [|hi [|lo rest]]; [constructor|constructor|].
    cbn [words_of]. constructor.
    + pose proof (Byte.to_N_bounded hi). pose proof (Byte.to_N_bounded lo).
      lia.
    + apply IH. cbn [length] in Hlen. lia.
Qed.

Lemma length_words_of bs k :
  length bs = 2 * k -> length (words_of bs) = k.
Proof.
  revert bs. induction k as [|k IH]; intros bs Hlen.
  - by destruct bs.
  - destruct bs as [|hi [|lo rest]]; cbn [length] in Hlen; [lia|lia|].
    cbn [words_of length]. f_equal. apply IH. lia.
Qed.

(** The presentation form of an IPv6 address never exceeds 41
    characters. *)
Lemma length_inet_ntop6_text src :
  length src = 16 -> String.length (inet_ntop6_text src) <= 41.
Proof.
  intros Hlen. unfold inet_ntop6_text.
  pose proof (words_of_bounded src 16 ltac:(lia)) as Hws.
  pose proof (length_words_of src 8 ltac:(lia)) as Hlw.
  set (ws := words_of src) in *. generalize (best_run ws). intros best.
  assert (Hdrop : length (drop 12 src) = 4) by (rewrite length_drop; lia).
  pose proof (length_print_words src ws best ws 0 Hdrop Hws) as Hpw.
  rewrite length_append.
  assert (Htail : String.length
                    match best with
                    | Some (rb, rl) =>
                        if bool_decide (rb + rl = 8) then ":" else ""
                    | None => ""
                    end <= 1).
  { destruct best as [[rb rl]|]; [|cbn; lia]. case_bool_decide; cbn; lia. }
  destruct (can_encapsulate best) eqn:Hc.
  - assert (Hcost : words_cost best ws 0 <= 20).
    { do 9 (destruct ws as [|? ws]; try discriminate).
      unfold can_encapsulate in Hc. apply orb_prop in Hc as [Hc|Hc];
        apply bool_decide_eq_true in Hc as ->; vm_compute; lia. }
    lia.
  - pose proof (words_cost_le best ws 0). lia.
Qed.

(* ===================================================================== *)
(** ** Further properties of [ether_mac] *)
(* ===================================================================== *)

Lemma ether_mac_inv mem addr s p s' reads :
  wf s ->
  ether_mac mem addr s = Some (p, s', reads) ->
  exists octets,
    field addr 6 mem = Some octets /\ length octets = 6 /\
    p = Vptr (Lheap (mac_block s)) /\ s' = after_ether_mac s octets /\
    reads = seq addr 6.
Proof.
  intros Hwf Hrun. rewrite ether_mac_run in Hrun by done.
  destruct (field addr 6 mem) as [octets|] eqn:Hf; [|done].
  injection Hrun as <- <- <-. exists octets.
  apply field_Some in Hf as Hf'. by destruct Hf' as (_ & _ & ?).
Qed.

Lemma wf_after_ether_mac s octets : wf s -> wf (after_ether_mac s octets).
Proof.
  intros Hwf. right. exists (mac_block s), (mac_text octets).
  split; [reflexivity|]. by apply after_ether_mac_text.
Qed.

Lemma length_after_ether_mac s octets :
  length (heap (after_ether_mac s octets))
  = length (heap s) + (if decide (mac_buffer s = Vnull) then 1 else 0).
Proof.
  unfold after_ether_mac. cbn [heap]. rewrite length_insert, length_app.
  by case_decide.
Qed.

(** X1.  The text [ether_mac] leaves behind the pointer it returns has
    exactly 17 characters: with its terminator it fills the 18 bytes of
    the buffer and never runs over them. *)
Theorem ether_mac_fills_buffer mem addr s p s' reads :
  wf s ->
  ether_mac mem addr s = Some (p, s', reads) ->
  p = mac_buffer s' /\
  exists t, load_chars s' p = Some t /\
            String.length t + 1 = MAC_BUFFER_SIZE /\
            fits t MAC_BUFFER_SIZE.
Proof.
  intros Hwf Hrun.
  destruct (ether_mac_inv _ _ _ _ _ _ Hwf Hrun)
    as (octets & _ & Hlen & -> & -> & _).
  split; [reflexivity|]. exists (mac_text octets).
  unfold load_chars. rewrite after_ether_mac_text by done.
  unfold fits, MAC_BUFFER_SIZE. rewrite length_mac_text by done.
  repeat split; lia.
Qed.

Lemma ether_mac_fills_buffer_witness :
  Vptr (Lheap 0) = mac_buffer state_after_ether_mac /\
  exists t, load_chars state_after_ether_mac (Vptr (Lheap 0)) = Some t /\
            String.length t + 1 = MAC_BUFFER_SIZE /\
            fits t MAC_BUFFER_SIZE.
Proof.
  apply (ether_mac_fills_buffer arp_frame 6 init_state (Vptr (Lheap 0))
           state_after_ether_mac [6; 7; 8; 9; 10; 11]).
  - left. reflexivity.
  - vm_compute. reflexivity.
Defined.

(** X2.  [ether_mac] allocates its buffer once.  The first call adds one
    heap block and returns it; every later call adds none and returns the
    same pointer, including the call that follows this one. *)
Theorem ether_mac_allocates_once mem addr s p s' reads :
  wf s ->
  ether_mac mem addr s = Some (p, s', reads) ->
  wf s' /\
  (mac_buffer s = Vnull ->
   p = Vptr (Lheap (length (heap s))) /\
   length (heap s') = S (length (heap s))) /\
  (mac_buffer s <> Vnull ->
   p = mac_buffer s /\ length (heap s') = length (heap s)) /\
  (forall mem2 addr2 p2 s2 reads2,
     ether_mac mem2 addr2 s' = Some (p2, s2, reads2) ->
     p2 = p /\ length (heap s2) = length (heap s')).
Proof.
  intros Hwf Hrun.
  destruct (ether_mac_inv _ _ _ _ _ _ Hwf Hrun)
    as (octets & _ & _ & -> & -> & _).
  assert (Hwf' : wf (after_ether_mac s octets)) by by apply wf_after_ether_mac.
  split; [done|]. split; [|split].
  - intros Hnull. rewrite length_after_ether_mac.
    unfold mac_block. rewrite Hnull. case_decide; [|done]. split; [done|lia].
  - intros Hset. rewrite length_after_ether_mac. case_decide; [done|].
    split; [|lia]. unfold mac_block.
    destruct Hwf as [?|(b & t & Hb & _)]; [done|]. by rewrite Hb.
  - intros mem2 addr2 p2 s2 reads2 Hrun2.
    destruct (ether_mac_inv _ _ _ _ _ _ Hwf' Hrun2)
      as (octets2 & _ & _ & -> & -> & _).
    split; [reflexivity|]. rewrite length_after_ether_mac.
    cbn [after_ether_mac mac_buffer]. case_decide; [done|lia].
Qed.

Lemma ether_mac_allocates_once_witness :
  wf state_after_ether_mac /\
  (mac_buffer init_state = Vnull ->
   Vptr (Lheap 0) = Vptr (Lheap (length (heap init_state))) /\
   length (heap state_after_ether_mac) = S (length (heap init_state))) /\
  (mac_buffer init_state <> Vnull ->
   Vptr (Lheap 0) = mac_buffer init_state /\
   length (heap state_after_ether_mac) = length (heap init_state)) /\
  (forall mem2 addr2 p2 s2 reads2,
     ether_mac mem2 addr2 state_after_ether_mac = Some (p2, s2, reads2) ->
     p2 = Vptr (Lheap 0) /\
     length (heap s2) = length (heap state_after_ether_mac)).
Proof.
  apply (ether_mac_allocates_once arp_frame 6 init_state (Vptr (Lheap 0))
           state_after_ether_mac [6; 7; 8; 9; 10; 11]).
  - left. reflexivity.
  - vm_compute. reflexivity.
Defined.

Lemma pair_value_fmt_02x b : pair_value (fmt_02x b) = Byte.to_N b.
Proof. destruct b; reflexivity. Qed.

Lemma fmt_02x_inj b1 b2 : fmt_02x b1 = fmt_02x b2 -> b1 = b2.
Proof.
  intros H. apply (f_equal pair_value) in H.
  rewrite !pair_value_fmt_02x in H.
  pose proof (Byte.of_to_N b1) as H1. pose proof (Byte.of_to_N b2) as H2.
  rewrite H in H1. congruence.
Qed.

Lemma octet_pair_chars b :
  octet_pair b
  = String (lower_hex_digit (Byte.to_N b / 16))
      (String (lower_hex_digit (Byte.to_N b mod 16)) "").
Proof. reflexivity. Qed.

Lemma mac_text_inj o1 o2 :
  length o1 = 6 -> length o2 = 6 -> mac_text o1 = mac_text o2 -> o1 = o2.
Proof.
  intros H1 H2.
  do 7 (destruct o1 as [|? o1]; try discriminate).
  do 7 (destruct o2 as [|? o2]; try discriminate).
  unfold mac_text. cbn [fmap list_fmap String.concat].
  rewrite !fmt_02x_octet_pair, !octet_pair_chars.
  intros H. injection H as H0 H0' H1a H1a' H2a H2a' H3 H3' H4 H4' H5 H5'.
  repeat f_equal; apply fmt_02x_inj; rewrite !fmt_02x_octet_pair, !octet_pair_chars;
    congruence.
Qed.

(** X3.  Different hardware addresses never receive the same text: when
    two calls of [ether_mac] leave equal strings, the six octets they read
    were equal. *)
Theorem ether_mac_text_injective mem1 addr1 s1 p1 s1' reads1
    mem2 addr2 s2 p2 s2' reads2 :
  wf s1 -> wf s2 ->
  ether_mac mem1 addr1 s1 = Some (p1, s1', reads1) ->
  ether_mac mem2 addr2 s2 = Some (p2, s2', reads2) ->
  load_chars s1' p1 = load_chars s2' p2 ->
  field addr1 6 mem1 = field addr2 6 mem2.
Proof.
  intros Hwf1 Hwf2 Hrun1 Hrun2.
  destruct (ether_mac_inv _ _ _ _ _ _ Hwf1 Hrun1)
    as (o1 & Hf1 & Hl1 & -> & -> & _).
  destruct (ether_mac_inv _ _ _ _ _ _ Hwf2 Hrun2)
    as (o2 & Hf2 & Hl2 & -> & -> & _).
  unfold load_chars. rewrite !after_ether_mac_text by done.
  intros [= Heq]. rewrite Hf1, Hf2. f_equal. by apply mac_text_inj.
Qed.

Lemma ether_mac_text_injective_witness :
  field 6 6 arp_frame = field 6 6 ns_frame.
Proof.
  apply (ether_mac_text_injective arp_frame 6 init_state (Vptr (Lheap 0))
           state_after_ether_mac [6; 7; 8; 9; 10; 11]
           ns_frame 6 state_after_arp (Vptr (Lheap 1))
           state_after_arp [6; 7; 8; 9; 10; 11]).
  - left. reflexivity.
  - right. exists 1, "aa:bb:cc:dd:ee:ff"%string. split; reflexivity.
  - vm_compute. reflexivity.
  - vm_compute. reflexivity.
  - reflexivity.
Defined.

(* ===================================================================== *)
(** ** Further properties of [pcapRead]: buffers and reads *)
(* ===================================================================== *)

Lemma path_of_lengths mem p :
  path_of mem = Some p ->
  match p with
  | NotVlan => True
  | OtherInner shost => length shost = 6
  | InnerArp shost spa => length shost = 6 /\ length spa = 4
  | InnerIpv6 shost target => length shost = 6 /\ length target = 16
  end.
Proof.
  intros H. apply path_of_inv in H. destruct p; [done| | |].
  - destruct H as (_ & H6 & _). by apply field_Some in H6 as (_ & _ & ?).
  - destruct H as (_ & H6 & _ & H32).
    apply field_Some in H6 as (_ & _ & ?).
    by apply field_Some in H32 as (_ & _ & ?).
  - destruct H as (_ & H6 & _ & H66).
    apply field_Some in H6 as (_ & _ & ?).
    by apply field_Some in H66 as (_ & _ & ?).
Qed.

Lemma load_mac_after_alloc s :
  wf s ->
  load_chars (after_alloc s) (mac_buffer (after_alloc s))
  = load_chars s (mac_buffer s).
Proof.
  intros [Hn | (b & t & Hb & Ht)]; cbn [after_alloc mac_buffer].
  - by rewrite Hn.
  - rewrite Hb. unfold load_chars. cbn [after_alloc heap].
    by rewrite (lookup_app_l_Some _ _ _ _ Ht), Ht.
Qed.

Lemma buffers_fit_after_vlan s shost f_ip f_ip6 t_ip t_ip6 :
  wf s -> length shost = 6 ->
  fits t_ip INET_ADDRSTRLEN -> fits t_ip6 INET6_ADDRSTRLEN ->
  buffers_fit (after_vlan s shost f_ip f_ip6 t_ip t_ip6).
Proof.
  intros Hwf Hlen H4 H6. split; [done|]. split; [done|].
  intros t. rewrite after_vlan_mac_buffer, load_mac_after_vlan by done.
  intros [= <-]. unfold fits, MAC_BUFFER_SIZE. rewrite length_mac_text by done.
  lia.
Qed.

(** X4.  No call of [pcapRead] makes a text outgrow its buffer: if the
    strings in [ip], [ip6] and the MAC buffer fit their 16, 46 and 18
    bytes before the call, they do so after it. *)
Theorem pcapRead_texts_fit next s r s' reads :
  wf s -> buffers_fit s ->
  pcapRead next s = Some (r, s', reads) ->
  buffers_fit s'.
Proof.
  intros Hwf (Hip & Hip6 & Hmac) Hrun.
  assert (Halloc : buffers_fit (after_alloc s)).
  { split; [done|]. split; [done|]. intros t.
    rewrite load_mac_after_alloc by done. apply Hmac. }
  destruct (pcapRead_outcome _ _ _ _ _ Hwf Hrun)
    as [(_ & _ & -> & _) | (c & p & _ & Hp & Ho)]; [done|].
  apply path_of_lengths in Hp.
  destruct p; cbn [outcome_of] in Ho; injection Ho as _ <- _; [done| | |].
  - by apply buffers_fit_after_vlan.
  - destruct Hp as [H6 H4]. apply buffers_fit_after_vlan; [done|done| |done].
    unfold fits, INET_ADDRSTRLEN.
    pose proof (length_inet_ntop4_text spa H4). lia.
  - destruct Hp as [H6 H16]. apply buffers_fit_after_vlan; [done|done|done|].
    unfold fits, INET6_ADDRSTRLEN.
    pose proof (length_inet_ntop6_text target H16). lia.
Qed.

Lemma pcapRead_texts_fit_witness : buffers_fit state_after_ns.
Proof.
  apply (pcapRead_texts_fit (Some (whole ns_frame)) init_state
           (Vptr (Lheap 0)) state_after_ns
           [12; 13; 6; 7; 8; 9; 10; 11; 16; 17; 16; 17;
            66; 67; 68; 69; 70; 71; 72; 73; 74; 75; 76; 77; 78; 79; 80; 81]).
  - left. reflexivity.
  - split; [|split].
    + unfold fits. vm_compute. lia.
    + unfold fits. vm_compute. lia.
    + intros t H. discriminate H.
  - vm_compute. reflexivity.
Defined.

Lemma field_agree off n (m1 m2 : list byte) bs :
  0 < n ->
  field off n m1 = Some bs ->
  (forall i, off <= i < off + n -> m1 !! i = m2 !! i) ->
  field off n m2 = Some bs.
Proof.
  intros Hn Hf Hagree. apply field_Some in Hf as (Hle & -> & _).
  assert (Hlen2 : off + n <= length m2).
  { destruct (lookup_lt_is_Some_2 m1 (off + n - 1)) as [x Hx]; [lia|].
    rewrite Hagree in Hx by lia. apply lookup_lt_Some in Hx. lia. }
  rewrite field_defined by done. f_equal. apply list_eq. intros i.
  destruct (decide (i < n)) as [Hi|Hi].
  - rewrite !lookup_take_lt, !lookup_drop by done. symmetry. apply Hagree. lia.
  - rewrite !lookup_ge_None_2; [done| |];
      rewrite length_take, length_drop; lia.
Qed.

Lemma ether_type_at_agree off (m1 m2 : list byte) ty :
  ether_type_at m1 off = Some ty ->
  (forall i, off <= i < off + 2 -> m1 !! i = m2 !! i) ->
  ether_type_at m2 off = Some ty.
Proof.
  unfold ether_type_at. intros H Hagree.
  destruct (field off 2 m1) as [bs|] eqn:Hf; [|done].
  by rewrite (field_agree off 2 m1 m2 bs) by (done || lia).
Qed.

Lemma path_of_agree (m1 m2 : list byte) p :
  path_of m1 = Some p ->
  Forall (fun i => m1 !! i = m2 !! i) (reads_of p) ->
  path_of m2 = Some p.
Proof.
  intros Hp Hagree. apply path_of_inv in Hp.
  destruct p; cbn [reads_of] in Hagree;
    rewrite ?Forall_app, !Forall_seq in Hagree.
  - destruct Hp as (ty & H12 & Hne).
    apply (path_not_vlan _ ty); [|done].
    apply (ether_type_at_agree _ m1); [done|]. intros i Hi. apply Hagree. lia.
  - destruct Hagree as (A12 & A6 & A16 & _).
    destruct Hp as (H12 & H6 & ty & H16 & Ha & Hi).
    destruct (path_other m2 ty) as (shost' & H6' & Hp); [| |done|done|].
    + apply (ether_type_at_agree _ m1); [done|]. intros i ?. apply A12. lia.
    + apply (ether_type_at_agree _ m1); [done|]. intros i ?. apply A16. lia.
    + rewrite (field_agree 6 6 m1 m2 shost) in H6'; [|lia|done|].
      * by injection H6' as <-.
      * intros i ?. apply A6. lia.
  - destruct Hagree as (A12 & A6 & A16 & A32).
    destruct Hp as (H12 & H6 & H16 & H32). apply path_arp.
    + apply (ether_type_at_agree _ m1); [done|]. intros i ?. apply A12. lia.
    + apply (ether_type_at_agree _ m1); [done|]. intros i ?. apply A16. lia.
    + apply (field_agree 6 6 m1); [lia|done|]. intros i ?. apply A6. lia.
    + apply (field_agree 32 4 m1); [lia|done|]. intros i ?. apply A32. lia.
  - destruct Hagree as (A12 & A6 & A16 & _ & A66).
    destruct Hp as (H12 & H6 & H16 & H66). apply path_ipv6.
    + apply (ether_type_at_agree _ m1); [done|]. intros i ?. apply A12. lia.
    + apply (ether_type_at_agree _ m1); [done|]. intros i ?. apply A16. lia.
    + apply (field_agree 6 6 m1); [lia|done|]. intros i ?. apply A6. lia.
    + apply (field_agree 66 16 m1); [lia|done|]. intros i ?. apply A66. lia.
Qed.

Lemma outcome_reads p s : snd (outcome_of p s) = reads_of p.
Proof. by destruct p. Qed.

(** X5.  The outcome of a call depends on nothing in the capture but the
    bytes it reads: a capture that holds the same bytes at the offsets
    read gives the same return value, the same state and the same
    reads, whatever its other bytes and its length. *)
Theorem pcapRead_depends_on_reads_only c1 c2 s r s' reads :
  wf s ->
  pcapRead (Some c1) s = Some (r, s', reads) ->
  Forall (fun i => memory c1 !! i = memory c2 !! i) reads ->
  pcapRead (Some c2) s = Some (r, s', reads).
Proof.
  intros Hwf Hrun Hagree. rewrite pcapRead_run in Hrun |- * by done.
  destruct (path_of (memory c1)) as [p|] eqn:Hp; [|done].
  cbn [option_map] in Hrun. injection Hrun as Hrun.
  pose proof (outcome_reads p s) as Hr. rewrite Hrun in Hr. cbn [snd] in Hr.
  rewrite Hr in Hagree.
  by rewrite (path_of_agree _ _ _ Hp Hagree), <- Hrun.
Qed.

Lemma pcapRead_depends_on_reads_only_witness :
  pcapRead (Some truncated_arp) init_state
  = Some (Vptr (Lheap 0), state_after_arp,
          [12; 13; 6; 7; 8; 9; 10; 11; 16; 17; 32; 33; 34; 35]).
Proof.
  apply (pcapRead_depends_on_reads_only (whole arp_frame) truncated_arp
           init_state).
  - left. reflexivity.
  - vm_compute. reflexivity.
  - repeat constructor.
Defined.

(** X6.  Whatever the capture, a call reads only the source address and
    the first EtherType (offsets 6 to 13), the inner EtherType (16, 17),
    the four bytes at 32 and the sixteen bytes at 66.  The destination
    address, the VLAN identifier, the ARP header with its opcode and
    sender hardware address, the IPv6 header and the ICMPv6 type, code
    and checksum are never looked at; a non-VLAN frame is rejected on
    offsets 12 and 13 alone. *)
Theorem pcapRead_reads_only_address_fields next s r s' reads :
  wf s ->
  pcapRead next s = Some (r, s', reads) ->
  Forall readable_offset reads /\
  (forall c ty, next = Some c -> ether_type_at (memory c) 12 = Some ty ->
                ty <> ETHERTYPE_VLAN -> reads = [12; 13]) /\
  (next = None -> reads = []).
Proof.
  intros Hwf Hrun.
  destruct (pcapRead_outcome _ _ _ _ _ Hwf Hrun)
    as [(-> & _ & _ & ->) | (c & p & -> & Hp & Ho)].
  { split; [constructor|]. split; [intros ? ? [=]|done]. }
  pose proof (outcome_reads p s) as Hr. rewrite Ho in Hr. cbn [snd] in Hr.
  subst reads. split; [|split; [|done]].
  - destruct p; cbn [reads_of]; rewrite ?Forall_app, !Forall_seq;
      repeat split; intros i Hi; unfold readable_offset; lia.
  - intros c' ty [= <-] H12 Hne.
    rewrite (path_not_vlan _ _ H12 Hne) in Hp. by injection Hp as <-.
Qed.

Lemma pcapRead_reads_only_address_fields_witness :
  Forall readable_offset
    [12; 13; 6; 7; 8; 9; 10; 11; 16; 17; 32; 33; 34; 35].
Proof.
  apply (pcapRead_reads_only_address_fields (Some (whole arp_frame))
           init_state (Vptr (Lheap 0)) state_after_arp).
  - left. reflexivity.
  - vm_compute. reflexivity.
Defined.

(** X7.  A call on a packet is defined exactly when the capture memory
    reaches as far as the offsets of its own path: 14 bytes, 18 behind a
    VLAN marker, 36 for ARP and 82 for IPv6.  On anything shorter the code
    reads outside the memory it was given. *)
Theorem pcapRead_defined_iff c s :
  wf s ->
  is_Some (pcapRead (Some c) s) <-> long_enough (memory c).
Proof.
  intros Hwf. rewrite pcapRead_run by done. split.
  - intros [res Hres].
    destruct (path_of (memory c)) as [p|] eqn:Hp; [|done].
    apply (path_long_enough (memory c) [] p); [by rewrite app_nil_r|].
    apply path_of_inv in Hp.
    destruct p; cbn [required_length].
    + destruct Hp as (ty & H12 & _). by apply ether_type_at_length in H12.
    + destruct Hp as (_ & _ & ty & H16 & _).
      by apply ether_type_at_length in H16.
    + destruct Hp as (_ & _ & _ & H32). by apply field_Some in H32 as (? & _).
    + destruct Hp as (_ & _ & _ & H66). by apply field_Some in H66 as (? & _).
  - intros Hlong. destruct (long_enough_path _ Hlong) as (p & -> & _).
    by eexists.
Qed.

Lemma pcapRead_defined_iff_witness :
  is_Some (pcapRead (Some (whole arp_frame)) init_state) /\
  ~ is_Some (pcapRead (Some (whole (take 13 arp_frame))) init_state).
Proof.
  split.
  - apply (pcapRead_defined_iff (whole arp_frame) init_state).
    + left. reflexivity.
    + vm_compute. lia.
  - intros H.
    apply (pcapRead_defined_iff (whole (take 13 arp_frame)) init_state) in H.
    + vm_compute in H. lia.
    + left. reflexivity.
Defined.

(* ===================================================================== *)
(** ** Further properties of [pcapRead]: allocation *)
(* ===================================================================== *)

Lemma length_after_alloc s :
  length (heap (after_alloc s)) = S (length (heap s)).
Proof. cbn [after_alloc heap]. rewrite length_app. simpl. lia. Qed.

Lemma length_after_vlan s shost f_ip f_ip6 t_ip t_ip6 :
  length (heap (after_vlan s shost f_ip f_ip6 t_ip t_ip6))
  = S (length (heap s)) + (if decide (mac_buffer s = Vnull) then 1 else 0).
Proof.
  unfold after_vlan. cbn [heap after_ether_mac after_alloc mac_buffer].
  rewrite !length_insert, !length_app. case_decide; simpl; lia.
Qed.

(** What one call does to the heap and to [mac_buffer]. *)
Lemma pcapRead_heap_step next s r s' reads :
  wf s ->
  pcapRead next s = Some (r, s', reads) ->
  (mac_buffer s <> Vnull -> mac_buffer s' = mac_buffer s) /\
  length (heap s')
  = S (length (heap s))
    + (if decide (mac_buffer s = Vnull /\ mac_buffer s' <> Vnull)
       then 1 else 0) /\
  mac_buffer s' <> Vptr (Lheap (length (heap s))).
Proof.
  intros Hwf Hrun.
  assert (Hquiet :
    (mac_buffer s <> Vnull -> mac_buffer (after_alloc s) = mac_buffer s) /\
    length (heap (after_alloc s))
    = S (length (heap s))
      + (if decide (mac_buffer s = Vnull /\
                    mac_buffer (after_alloc s) <> Vnull)
         then 1 else 0) /\
    mac_buffer (after_alloc s) <> Vptr (Lheap (length (heap s)))).
  { split; [done|]. rewrite length_after_alloc. cbn [after_alloc mac_buffer].
    split.
    - case_decide as Hd; [|lia]. by destruct Hd.
    - destruct Hwf as [Hn | (b & t & Hb & Ht)]; [by rewrite Hn|].
      rewrite Hb. intros [= ->]. apply lookup_lt_Some in Ht. lia. }
  assert (Hvlan : forall shost f_ip f_ip6 t_ip t_ip6,
    let s1 := after_vlan s shost f_ip f_ip6 t_ip t_ip6 in
    (mac_buffer s <> Vnull -> mac_buffer s1 = mac_buffer s) /\
    length (heap s1)
    = S (length (heap s))
      + (if decide (mac_buffer s = Vnull /\ mac_buffer s1 <> Vnull)
         then 1 else 0) /\
    mac_buffer s1 <> Vptr (Lheap (length (heap s)))).
  { intros shost f_ip f_ip6 t_ip t_ip6 s1. subst s1.
    split; [by apply after_vlan_keeps_mac_buffer|].
    rewrite length_after_vlan, after_vlan_mac_buffer. split.
    - repeat case_decide; first [lia | exfalso; intuition congruence].
    - intros [= E]. by apply (mac_block_after_alloc s Hwf). }
  destruct (pcapRead_outcome _ _ _ _ _ Hwf Hrun)
    as [(_ & _ & -> & _) | (c & p & _ & _ & Ho)]; [done|].
  destruct p; cbn [outcome_of] in Ho; injection Ho as _ <- _;
    [done|apply Hvlan..].
Qed.

(** X8.  Every call allocates exactly one block for the pair, before it
    looks at the packet, and one more for the MAC buffer if this is the
    call that sets [mac_buffer].  When the call returns the null pointer
    the pair block is lost: it exists, but neither the return value nor
    [mac_buffer] points at it. *)
Theorem pcapRead_allocation next s r s' reads :
  wf s ->
  pcapRead next s = Some (r, s', reads) ->
  length (heap s')
  = S (length (heap s))
    + (if decide (mac_buffer s = Vnull /\ mac_buffer s' <> Vnull)
       then 1 else 0) /\
  (r = Vnull ->
   is_Some (heap s' !! length (heap s)) /\
   r <> Vptr (Lheap (length (heap s))) /\
   mac_buffer s' <> Vptr (Lheap (length (heap s)))).
Proof.
  intros Hwf Hrun.
  destruct (pcapRead_heap_step _ _ _ _ _ Hwf Hrun) as (_ & Hlen & Hmb).
  split; [done|]. intros ->. split; [|done].
  apply lookup_lt_is_Some_2. rewrite Hlen. lia.
Qed.

Lemma pcapRead_allocation_witness :
  length (heap (after_alloc state_after_arp))
  = S (length (heap state_after_arp))
    + (if decide (mac_buffer state_after_arp = Vnull /\
                  mac_buffer (after_alloc state_after_arp) <> Vnull)
       then 1 else 0) /\
  (Vnull = Vnull ->
   is_Some (heap (after_alloc state_after_arp)
              !! length (heap state_after_arp)) /\
   Vnull <> Vptr (Lheap (length (heap state_after_arp))) /\
   mac_buffer (after_alloc state_after_arp)
   <> Vptr (Lheap (length (heap state_after_arp)))).
Proof.
  apply (pcapRead_allocation None state_after_arp Vnull
           (after_alloc state_after_arp) []).
  - right. exists 1, "aa:bb:cc:dd:ee:ff"%string. split; reflexivity.
  - reflexivity.
Defined.

(** X9.  After any number of calls, each starting where the previous one
    stopped, the heap has grown by one block per call plus one block if
    [mac_buffer] was set during the calls: pairs accumulate, the MAC
    buffer is allocated at most once and, once set, never changes.  The
    invariant of the globals holds at the end and there is one return
    value per call. *)
Theorem pcapRead_all_allocation nexts s rs s' :
  wf s ->
  pcapRead_all nexts s = Some (rs, s') ->
  wf s' /\
  length rs = length nexts /\
  (mac_buffer s <> Vnull -> mac_buffer s' = mac_buffer s) /\
  length (heap s')
  = length (heap s) + length nexts
    + (if decide (mac_buffer s = Vnull /\ mac_buffer s' <> Vnull)
       then 1 else 0).
Proof.
  revert s rs s'. induction nexts as [|next rest IH]; intros s rs s' Hwf Hall.
  - injection Hall as <- <-. split; [done|]. split; [done|]. split; [done|].
    case_decide as Hd; [by destruct Hd|]. cbn [length]. lia.
  - cbn [pcapRead_all] in Hall.
    destruct (pcapRead next s) as [[[r s1] reads]|] eqn:Hrun; [|done].
    destruct (pcapRead_all rest s1) as [[rs1 s2]|] eqn:Hrest; [|done].
    injection Hall as <- <-.
    assert (Hwf1 : wf s1) by by eapply wf_pcapRead.
    destruct (pcapRead_heap_step _ _ _ _ _ Hwf Hrun) as (Hk1 & Hl1 & _).
    destruct (IH _ _ _ Hwf1 Hrest) as (Hwf2 & Hn & Hk2 & Hl2).
    split; [done|]. split; [cbn [length]; lia|]. split.
    + intros Hset. rewrite Hk2; [by apply Hk1|]. by rewrite Hk1.
    + rewrite Hl2, Hl1. cbn [length].
      destruct (decide (mac_buffer s = Vnull)) as [Hs|Hs].
      * destruct (decide (mac_buffer s1 = Vnull)) as [Hs1|Hs1].
        -- repeat case_decide; first [lia | exfalso; intuition congruence].
        -- rewrite (Hk2 Hs1). repeat case_decide; first [lia | exfalso; intuition congruence].
      * rewrite (Hk1 Hs) in *. rewrite (Hk2 Hs).
        repeat case_decide; first [lia | exfalso; intuition congruence].
Qed.

Lemma pcapRead_all_allocation_witness :
  exists rs s',
    pcapRead_all [Some (whole untagged_arp_frame); Some (whole arp_frame);
                  None; Some (whole ns_frame)] init_state = Some (rs, s') /\
    length rs = 4 /\ length (heap s') = 5 /\ wf s'.
Proof.
  destruct (pcapRead_all
              [Some (whole untagged_arp_frame); Some (whole arp_frame);
               None; Some (whole ns_frame)] init_state)
    as [[rs s']|] eqn:Hall; [|vm_compute in Hall; discriminate].
  exists rs, s'. split; [reflexivity|].
  destruct (pcapRead_all_allocation _ _ _ _ wf_init Hall)
    as (Hwf & Hn & _ & Hlen).
  split; [exact Hn|]. split; [|exact Hwf].
  rewrite Hlen. vm_compute in Hall. injection Hall as _ <-. reflexivity.
Defined.

(* ===================================================================== *)
(** ** Further properties of [pcapRead]: results of earlier calls *)
(* ===================================================================== *)

Lemma is_result_after_alloc s r0 :
  is_result s r0 -> is_result (after_alloc s) r0.
Proof.
  intros (b & pr & -> & Hb & Hset & Hmac & Haddr).
  exists b, pr. split; [done|]. split; [|done].
  cbn [after_alloc heap]. by apply lookup_app_l_Some.
Qed.

Lemma is_result_after_vlan s r0 shost f_ip f_ip6 t_ip t_ip6 :
  wf s -> is_result s r0 ->
  is_result (after_vlan s shost f_ip f_ip6 t_ip t_ip6) r0.
Proof.
  intros Hwf (b & pr & -> & Hb & Hset & Hmac & Haddr).
  destruct (is_result_block _ _ _ Hwf Hb) as [Hlt Hne].
  exists b, pr. split; [done|].
  rewrite after_vlan_frame by done. split; [done|].
  rewrite after_vlan_keeps_mac_buffer by done. done.
Qed.

Lemma new_result_after_vlan s shost f_ip f_ip6 t_ip t_ip6 :
  wf s ->
  (f_ip = Vptr Lip /\ f_ip6 = Vnull) \/ (f_ip = Vnull /\ f_ip6 = Vptr Lip6) ->
  is_result (after_vlan s shost f_ip f_ip6 t_ip t_ip6)
    (Vptr (Lheap (length (heap s)))).
Proof.
  intros Hwf Haddr. eexists _, _. split; [done|].
  split; [by apply after_vlan_pair|]. by rewrite after_vlan_mac_buffer.
Qed.

(** How a result reads: the text behind [mac_buffer] and the content of
    the static array of its family. *)
Lemma view_is_result s r0 :
  is_result s r0 ->
  view s r0
  = option_map
      (fun m => (m, match load_pair s r0 with
                    | Some pr => if decide (p_ip pr = Vnull)
                                 then V6 (ip6 s) else V4 (ip s)
                    | None => V4 (ip s)
                    end))
      (load_chars s (mac_buffer s)).
Proof.
  intros (b & pr & -> & Hb & Hset & Hmac & Haddr).
  unfold view, load_pair. rewrite Hb, Hmac.
  destruct (load_chars s (mac_buffer s)) as [m|]; [|done].
  by destruct Haddr as [[-> ->] | [-> ->]].
Qed.

Lemma load_pair_kept s r0 s' :
  is_result s r0 -> is_result s' r0 ->
  (forall b, r0 = Vptr (Lheap b) -> heap s' !! b = heap s !! b) ->
  load_pair s' r0 = load_pair s r0.
Proof.
  intros (b & pr & -> & Hb & _) _ Hsame. unfold load_pair.
  by rewrite (Hsame b eq_refl).
Qed.

(** X10.  A pointer returned by an earlier call stays a result through
    every later call: it still leads to its pair, whose [mac] is still
    [mac_buffer] and whose address field is still the static array.  The
    later call returns a different pointer, which is a result as well
    when it is not null. *)
Theorem pcapRead_results_persist next s r s' reads r0 :
  wf s -> is_result s r0 ->
  pcapRead next s = Some (r, s', reads) ->
  is_result s' r0 /\
  load_pair s' r0 = load_pair s r0 /\
  r <> r0 /\
  (r <> Vnull -> is_result s' r).
Proof.
  intros Hwf Hres Hrun.
  assert (Hold : exists b pr, r0 = Vptr (Lheap b) /\
                              heap s !! b = Some (Opair pr)).
  { destruct Hres as (b & pr & ? & ? & _). by exists b, pr. }
  destruct Hold as (b & pr & -> & Hb).
  destruct (is_result_block _ _ _ Hwf Hb) as [Hlt Hne].
  destruct (pcapRead_outcome _ _ _ _ _ Hwf Hrun)
    as [(_ & -> & -> & _) | (c & p & _ & _ & Ho)].
  { split; [by apply is_result_after_alloc|].
    split; [|done]. unfold load_pair. cbn [after_alloc heap].
    by rewrite (lookup_app_l_Some _ _ _ _ Hb), Hb. }
  assert (Hpair : forall shost f_ip f_ip6 t_ip t_ip6,
            load_pair (after_vlan s shost f_ip f_ip6 t_ip t_ip6)
              (Vptr (Lheap b)) = load_pair s (Vptr (Lheap b))).
  { intros. unfold load_pair. by rewrite after_vlan_frame. }
  destruct p; cbn [outcome_of] in Ho; injection Ho as <- <- _.
  - split; [by apply is_result_after_alloc|].
    split; [|done]. unfold load_pair. cbn [after_alloc heap].
    by rewrite (lookup_app_l_Some _ _ _ _ Hb), Hb.
  - split; [by apply is_result_after_vlan|]. by split.
  - split; [by apply is_result_after_vlan|]. split; [done|].
    split; [intros [= E]; lia|]. intros _.
    apply new_result_after_vlan; [done|by left].
  - split; [by apply is_result_after_vlan|]. split; [done|].
    split; [intros [= E]; lia|]. intros _.
    apply new_result_after_vlan; [done|by right].
Qed.

Lemma wf_state_after_arp : wf state_after_arp.
Proof. right. exists 1, "aa:bb:cc:dd:ee:ff"%string. split; reflexivity. Qed.

Lemma is_result_state_after_arp : is_result state_after_arp (Vptr (Lheap 0)).
Proof.
  eexists 0, _. split; [reflexivity|]. split; [reflexivity|].
  split; [discriminate|]. split; [reflexivity|]. left. split; reflexivity.
Qed.

Lemma pcapRead_results_persist_witness :
  is_result state_after_arp_ns (Vptr (Lheap 0)) /\
  load_pair state_after_arp_ns (Vptr (Lheap 0))
  = load_pair state_after_arp (Vptr (Lheap 0)) /\
  Vptr (Lheap 2) <> Vptr (Lheap 0) /\
  (Vptr (Lheap 2) <> Vnull -> is_result state_after_arp_ns (Vptr (Lheap 2))).
Proof.
  apply (pcapRead_results_persist (Some (whole ns_frame)) state_after_arp
           (Vptr (Lheap 2)) state_after_arp_ns ns_reads).
  - exact wf_state_after_arp.
  - exact is_result_state_after_arp.
  - vm_compute. reflexivity.
Defined.

Lemma view_earlier s r0 :
  wf s -> is_result s r0 ->
  exists m0 pr,
    load_pair s r0 = Some pr /\
    view s r0 = Some (m0, if decide (p_ip pr = Vnull)
                          then V6 (ip6 s) else V4 (ip s)).
Proof.
  intros Hwf Hres. rewrite (view_is_result _ _ Hres).
  destruct Hres as (b & pr & -> & Hb & Hset & _).
  destruct Hwf as [?|(b' & t & Hb' & Ht)]; [done|].
  exists t, pr. unfold load_pair, load_chars. by rewrite Hb, Hb', Ht.
Qed.

Lemma view_earlier_after_alloc s r0 :
  wf s -> is_result s r0 -> view (after_alloc s) r0 = view s r0.
Proof.
  intros Hwf Hres.
  rewrite (view_is_result _ _ Hres),
    (view_is_result _ _ (is_result_after_alloc _ _ Hres)).
  rewrite load_mac_after_alloc by done.
  destruct Hres as (b & pr & -> & Hb & _). unfold load_pair.
  cbn [after_alloc heap ip ip6].
  by rewrite (lookup_app_l_Some _ _ _ _ Hb), Hb.
Qed.

Lemma view_earlier_after_vlan s r0 pr shost f_ip f_ip6 t_ip t_ip6 :
  wf s -> is_result s r0 -> load_pair s r0 = Some pr ->
  view (after_vlan s shost f_ip f_ip6 t_ip t_ip6) r0
  = Some (mac_text shost,
          if decide (p_ip pr = Vnull) then V6 t_ip6 else V4 t_ip).
Proof.
  intros Hwf Hres Hpr.
  rewrite (view_is_result _ _
             (is_result_after_vlan _ _ shost f_ip f_ip6 t_ip t_ip6 Hwf Hres)).
  rewrite after_vlan_mac_buffer, load_mac_after_vlan by done.
  destruct Hres as (b & pr' & -> & Hb & _).
  destruct (is_result_block _ _ _ Hwf Hb) as [Hlt Hne].
  unfold load_pair in *. rewrite after_vlan_frame by done.
  rewrite Hb in Hpr |- *. by injection Hpr as ->.
Qed.

(** The source address along a path that went through [ether_mac]. *)
Lemma path_shost (f sl : list byte) p shost :
  ether_type_at f 12 = Some ETHERTYPE_VLAN ->
  field 6 6 f = Some shost ->
  path_of (f ++ sl) = Some p ->
  match p with
  | NotVlan => False
  | OtherInner x | InnerArp x _ | InnerIpv6 x _ => x = shost
  end.
Proof.
  intros H12 H6 Hp. apply path_of_inv in Hp.
  apply (ether_type_at_app _ sl) in H12. apply (field_app _ _ _ sl) in H6.
  destruct p.
  - destruct Hp as (ty & H12' & Hne). congruence.
  - destruct Hp as (_ & H6' & _). congruence.
  - destruct Hp as (_ & H6' & _). congruence.
  - destruct Hp as (_ & H6' & _). congruence.
Qed.

(** X11.  A call on a frame with the VLAN marker replaces the MAC text
    of every earlier result by the source address of the new frame,
    whatever the inner EtherType.  When that call returns the null
    pointer the earlier result keeps its address text, so it now pairs
    the address of its own frame with the MAC of a frame that was not
    even decoded. *)
Theorem pcapRead_vlan_rewrites_earlier_mac c s r s' reads r0 shost :
  wf s -> is_result s r0 ->
  ether_type_at (frame c) 12 = Some ETHERTYPE_VLAN ->
  field 6 6 (frame c) = Some shost ->
  pcapRead (Some c) s = Some (r, s', reads) ->
  exists a,
    view s' r0 = Some (mac_text shost, a) /\
    (r = Vnull -> exists m0, view s r0 = Some (m0, a)).
Proof.
  intros Hwf Hres H12 H6 Hrun.
  destruct (view_earlier _ _ Hwf Hres) as (m0 & pr & Hpr & Hview).
  rewrite pcapRead_run in Hrun by done. unfold memory in Hrun.
  destruct (path_of (frame c ++ slack c)) as [p|] eqn:Hp; [|done].
  pose proof (path_shost _ _ _ _ H12 H6 Hp) as Hs.
  cbn [option_map] in Hrun.
  destruct p; [done|subst shost0..]; cbn [outcome_of] in Hrun;
    injection Hrun as <- <- _;
    rewrite (view_earlier_after_vlan _ _ pr) by done;
    eexists; (split; [reflexivity|]); try done.
  intros _. exists m0. rewrite Hview. by case_decide.
Qed.

Lemma pcapRead_vlan_rewrites_earlier_mac_witness :
  exists a,
    view state_after_ns_other (Vptr (Lheap 0))
    = Some (mac_text [x02; x11; x22; x33; x44; x55], a) /\
    (Vnull = Vnull ->
     exists m0, view state_after_ns (Vptr (Lheap 0)) = Some (m0, a)).
Proof.
  apply (pcapRead_vlan_rewrites_earlier_mac (whole other_vlan_frame)
           state_after_ns Vnull state_after_ns_other
           [12; 13; 6; 7; 8; 9; 10; 11; 16; 17; 16; 17]
           (Vptr (Lheap 0)) [x02; x11; x22; x33; x44; x55]).
  - right. exists 1, "aa:bb:cc:dd:ee:ff"%string. split; reflexivity.
  - eexists 0, _. split; [reflexivity|]. split; [reflexivity|].
    split; [discriminate|]. split; [reflexivity|]. right. split; reflexivity.
  - reflexivity.
  - reflexivity.
  - vm_compute. reflexivity.
Defined.

(** X12.  A call without a packet, and a call on a frame that lacks the
    VLAN marker, leave every earlier result as it was: its MAC and
    address texts read the same before and after. *)
Theorem pcapRead_quiet_call_keeps_results next s r s' reads r0 :
  wf s -> is_result s r0 ->
  (next = None \/
   exists c ty, next = Some c /\ ether_type_at (frame c) 12 = Some ty /\
                ty <> ETHERTYPE_VLAN) ->
  pcapRead next s = Some (r, s', reads) ->
  is_Some (view s r0) /\ view s' r0 = view s r0.
Proof.
  intros Hwf Hres Hquiet Hrun.
  destruct (view_earlier _ _ Hwf Hres) as (m0 & pr & _ & Hview).
  split; [by eexists|].
  assert (Hs' : s' = after_alloc s).
  { destruct Hquiet as [-> | (c & ty & -> & H12 & Hne)].
    - rewrite pcapRead_no_packet in Hrun. by injection Hrun as _ <- _.
    - rewrite pcapRead_run in Hrun by done. unfold memory in Hrun.
      rewrite (path_not_vlan _ ty) in Hrun by auto using ether_type_at_app.
      by injection Hrun as _ <- _. }
  subst s'. by apply view_earlier_after_alloc.
Qed.

Lemma pcapRead_quiet_call_keeps_results_witness :
  is_Some (view state_after_arp (Vptr (Lheap 0))) /\
  view (after_alloc state_after_arp) (Vptr (Lheap 0))
  = view state_after_arp (Vptr (Lheap 0)).
Proof.
  apply (pcapRead_quiet_call_keeps_results
           (Some (whole untagged_arp_frame)) state_after_arp Vnull
           (after_alloc state_after_arp) [12; 13]).
  - exact wf_state_after_arp.
  - exact is_result_state_after_arp.
  - right. exists (whole untagged_arp_frame), ETHERTYPE_ARP.
    split; [reflexivity|]. split; [reflexivity|discriminate].
  - reflexivity.
Defined.

(** X13.  After a call that returns a pair, every earlier result carries
    the MAC text of the new pair.  An earlier result of the same address
    family reads exactly like the new one; an earlier result of the other
    family keeps its own address text and so pairs it with the MAC of the
    new frame. *)
Theorem pcapRead_match_rewrites_earlier_result c s r s' reads r0 :
  wf s -> is_result s r0 ->
  pcapRead (Some c) s = Some (r, s', reads) ->
  r <> Vnull ->
  exists m0 a0 m a,
    view s r0 = Some (m0, a0) /\
    view s' r = Some (m, a) /\
    view s' r0 = Some (m, if same_family a0 a then a else a0).
Proof.
  intros Hwf Hres Hrun Hr.
  destruct (view_earlier _ _ Hwf Hres) as (m0 & pr & Hpr & Hview).
  rewrite pcapRead_run in Hrun by done.
  destruct (path_of (memory c)) as [p|]; [|done].
  cbn [option_map] in Hrun.
  destruct p; cbn [outcome_of] in Hrun; injection Hrun as <- <- _;
    [done|done| |].
  - eexists m0, _, _, _. split; [exact Hview|].
    rewrite view_arp by done. split; [reflexivity|].
    rewrite (view_earlier_after_vlan _ _ pr) by done. by case_decide.
  - eexists m0, _, _, _. split; [exact Hview|].
    rewrite view_ipv6 by done. split; [reflexivity|].
    rewrite (view_earlier_after_vlan _ _ pr) by done. by case_decide.
Qed.

Lemma pcapRead_match_rewrites_earlier_result_witness :
  exists m0 a0 m a,
    view state_after_arp (Vptr (Lheap 0)) = Some (m0, a0) /\
    view state_after_arp_ns (Vptr (Lheap 2)) = Some (m, a) /\
    view state_after_arp_ns (Vptr (Lheap 0))
    = Some (m, if same_family a0 a then a else a0).
Proof.
  apply (pcapRead_match_rewrites_earlier_result (whole ns_frame)
           state_after_arp (Vptr (Lheap 2)) state_after_arp_ns ns_reads).
  - exact wf_state_after_arp.
  - exact is_result_state_after_arp.
  - vm_compute. reflexivity.
  - discriminate.
Defined.

(* ===================================================================== *)
(** ** Further properties of [pcapRead]: the bytes on the wire *)
(* ===================================================================== *)

Lemma byte_pair_inj h1 l1 h2 l2 :
  (256 * Byte.to_N h1 + Byte.to_N l1 = 256 * Byte.to_N h2 + Byte.to_N l2)%N ->
  h1 = h2 /\ l1 = l2.
Proof.
  intros H.
  pose proof (Byte.to_N_bounded h1). pose proof (Byte.to_N_bounded l1).
  pose proof (Byte.to_N_bounded h2). pose proof (Byte.to_N_bounded l2).
  assert (Hh : Byte.to_N h1 = Byte.to_N h2) by lia.
  assert (Hl : Byte.to_N l1 = Byte.to_N l2) by lia.
  pose proof (Byte.of_to_N h1) as E1. pose proof (Byte.of_to_N h2) as E2.
  pose proof (Byte.of_to_N l1) as E3. pose proof (Byte.of_to_N l2) as E4.
  rewrite Hh in E1. rewrite Hl in E3. split; congruence.
Qed.

(** An EtherType is the two bytes at its offset, most significant
    first. *)
Lemma ether_type_at_bytes (mem : list byte) off h l :
  ether_type_at mem off = Some (256 * Byte.to_N h + Byte.to_N l)%N <->
  mem !! off = Some h /\ mem !! S off = Some l.
Proof.
  unfold ether_type_at. split.
  - destruct (field off 2 mem) as [bs|] eqn:Hf; [|done].
    apply field_Some in Hf as (Hle & -> & Hlen).
    destruct (take 2 (drop off mem)) as [|hi [|lo [|? ?]]] eqn:Ht; try done.
    cbn [be16]. intros [= Hv]. apply byte_pair_inj in Hv as [-> ->].
    assert (H0 : take 2 (drop off mem) !! 0 = Some h) by by rewrite Ht.
    assert (H1 : take 2 (drop off mem) !! 1 = Some l) by by rewrite Ht.
    rewrite lookup_take_lt, lookup_drop in H0, H1 by lia.
    rewrite Nat.add_0_r in H0. rewrite Nat.add_1_r in H1. done.
  - intros [Hh Hl]. apply lookup_lt_Some in Hl as Hlen.
    rewrite field_defined by lia.
    assert (Ht : take 2 (drop off mem) = [h; l]).
    { apply list_eq. intros [|[|i]].
      - rewrite lookup_take_lt, lookup_drop, Nat.add_0_r by lia. done.
      - rewrite lookup_take_lt, lookup_drop, Nat.add_1_r by lia. done.
      - rewrite lookup_ge_None_2; [done|]. rewrite length_take. lia. }
    by rewrite Ht.
Qed.

(** X14.  Whether a call returns a pair is decided by four bytes of the
    capture memory, compared in network byte order: a pair is returned
    exactly when bytes 12 and 13 are 81 00 and bytes 16 and 17 are 08 06
    or 86 dd. *)
Theorem pcapRead_match_iff_wire_bytes c s r s' reads :
  wf s ->
  pcapRead (Some c) s = Some (r, s', reads) ->
  (r <> Vnull <->
   memory c !! 12 = Some x81 /\ memory c !! 13 = Some x00 /\
   ((memory c !! 16 = Some x08 /\ memory c !! 17 = Some x06) \/
    (memory c !! 16 = Some x86 /\ memory c !! 17 = Some xdd))).
Proof.
  intros Hwf Hrun.
  pose proof (ether_type_at_bytes (memory c) 12 x81 x00) as Hvlan.
  pose proof (ether_type_at_bytes (memory c) 16 x08 x06) as Harp.
  pose proof (ether_type_at_bytes (memory c) 16 x86 xdd) as Hipv6.
  change (256 * Byte.to_N x81 + Byte.to_N x00)%N with ETHERTYPE_VLAN in Hvlan.
  change (256 * Byte.to_N x08 + Byte.to_N x06)%N with ETHERTYPE_ARP in Harp.
  change (256 * Byte.to_N x86 + Byte.to_N xdd)%N with ETHERTYPE_IPV6 in Hipv6.
  rewrite pcapRead_run in Hrun by done.
  destruct (path_of (memory c)) as [p|] eqn:Hp; [|done].
  cbn [option_map] in Hrun. apply path_of_inv in Hp.
  destruct p; cbn [outcome_of] in Hrun; injection Hrun as <- _ _.
  - destruct Hp as (ty & H12 & Hne). split; [done|].
    intros (B12 & B13 & _). assert (ether_type_at (memory c) 12
      = Some ETHERTYPE_VLAN) by by apply Hvlan. congruence.
  - destruct Hp as (_ & _ & ty & H16 & Ha & Hi). split; [done|].
    intros (_ & _ & [[B16 B17] | [B16 B17]]).
    + assert (ether_type_at (memory c) 16 = Some ETHERTYPE_ARP)
        by by apply Harp. congruence.
    + assert (ether_type_at (memory c) 16 = Some ETHERTYPE_IPV6)
        by by apply Hipv6. congruence.
  - destruct Hp as (H12 & _ & H16 & _). split; [|done]. intros _.
    apply Hvlan in H12 as [? ?]. apply Harp in H16 as [? ?]. tauto.
  - destruct Hp as (H12 & _ & H16 & _). split; [|done]. intros _.
    apply Hvlan in H12 as [? ?]. apply Hipv6 in H16 as [? ?]. tauto.
Qed.

Lemma pcapRead_match_iff_wire_bytes_witness :
  Vptr (Lheap 0) <> Vnull <->
  memory (whole arp_frame) !! 12 = Some x81 /\
  memory (whole arp_frame) !! 13 = Some x00 /\
  ((memory (whole arp_frame) !! 16 = Some x08 /\
    memory (whole arp_frame) !! 17 = Some x06) \/
   (memory (whole arp_frame) !! 16 = Some x86 /\
    memory (whole arp_frame) !! 17 = Some xdd)).
Proof.
  apply (pcapRead_match_iff_wire_bytes (whole arp_frame) init_state
           (Vptr (Lheap 0)) state_after_arp
           [12; 13; 6; 7; 8; 9; 10; 11; 16; 17; 32; 33; 34; 35]).
  - left. reflexivity.
  - vm_compute. reflexivity.
Defined.
